(** * obsei: the Twitter source connector

    A shallow embedding of [obsei/source/twitter_source.py]: the query
    builder, the trailing-URL extraction, the output normaliser and the
    [lookup] orchestration, with the Python records kept in a store of
    mutable dictionaries so that aliasing and in-place updates are visible. *)

From Stdlib Require Import ZArith.
From stdpp Require Import gmap strings list fin_maps.

(** ** Strings *)

(** Python's [sep.join(parts)]. *)
Definition join (sep : string) (parts : list string) : string :=
  String.concat sep parts.

(** Truthiness of an optional string ([None] and the empty string are falsy). *)
Definition truthy_str (o : option string) : bool :=
  match o with
  | Some s => negb (String.eqb s "")
  | None => false
  end.

(** Truthiness of an optional list ([None] and the empty list are falsy). *)
Definition truthy_list {A} (o : option (list A)) : bool :=
  match o with
  | Some (_ :: _) => true
  | _ => false
  end.

(** Python strings are sequences of code points; a Rocq string holds the
    text in UTF-8. A code point is counted at its first byte: every byte
    but the continuation bytes [10xxxxxx]. *)
Definition is_continuation (c : Ascii.ascii) : bool :=
  match c with
  | Ascii.Ascii _ _ _ _ _ _ b6 b7 => b7 && negb b6
  end.

(** [len(s)] on a string. *)
Fixpoint py_str_len (s : string) : nat :=
  match s with
  | EmptyString => 0
  | String c rest =>
      if is_continuation c then py_str_len rest else S (py_str_len rest)
  end.

(** The continuation bytes a string starts with, and its characters after
    them, each with the continuation bytes that follow its first byte. *)
Fixpoint utf8_split (s : string) : string * list string :=
  match s with
  | EmptyString => (EmptyString, [])
  | String c rest =>
      let '(cont, chars) := utf8_split rest in
      if is_continuation c then (String c cont, chars)
      else (EmptyString, String c cont :: chars)
  end.

(** The characters of a string, as [for c in s] visits them. *)
Definition utf8_chars (s : string) : list string := (utf8_split s).2.

(** ** Module constants *)

Definition DEFAULT_MAX_TWEETS : Z := 10.

Definition DEFAULT_TWEET_FIELDS : list string :=
  [ "author_id"; "conversation_id"; "created_at"; "entities"; "geo"; "id";
    "in_reply_to_user_id"; "lang"; "public_metrics"; "referenced_tweets";
    "source"; "text" ].

Definition DEFAULT_EXPANSIONS : list string :=
  [ "author_id"; "entities.mentions.username"; "geo.place_id";
    "in_reply_to_user_id"; "referenced_tweets.id";
    "referenced_tweets.id.author_id" ].

Definition DEFAULT_PLACE_FIELDS : list string :=
  [ "contained_within"; "country"; "country_code"; "full_name"; "geo"; "id";
    "name"; "place_type" ].

Definition DEFAULT_USER_FIELDS : list string :=
  [ "created_at"; "description"; "entities"; "id"; "location"; "name";
    "public_metrics"; "url"; "username"; "verified" ].

Definition DEFAULT_OPERATORS : list string := [ "-is:reply"; "-is:retweet" ].

(** ** TwitterSourceConfig *)

Record TwitterSourceConfig := {
  twitter_config_filename : option string;
  query : option string;
  keywords : option (list string);
  hashtags : option (list string);
  usernames : option (list string);
  operators : option (list string);
  since_id : option Z;
  until_id : option Z;
  lookup_period : option string;
  tweet_fields : option (list string);
  user_fields : option (list string);
  expansions : option (list string);
  place_fields : option (list string);
  max_tweets : Z
}.

(** [x if x is not None else d] *)
Definition or_default {A} (x : option A) (d : A) : option A :=
  match x with
  | Some v => Some v
  | None => Some d
  end.

(** [TwitterSourceConfig.__init__]; an argument left out is [None], and
    [max_tweets] left out is [DEFAULT_MAX_TWEETS]. *)
Definition TwitterSourceConfig_init
    (twitter_config_filename : option string)
    (query : option string)
    (keywords hashtags usernames operators : option (list string))
    (since_id until_id : option Z)
    (lookup_period : option string)
    (tweet_fields user_fields expansions place_fields : option (list string))
    (max_tweets : option Z) : TwitterSourceConfig :=
  {| twitter_config_filename := twitter_config_filename;
     query := query;
     keywords := keywords;
     hashtags := hashtags;
     usernames := usernames;
     operators := or_default operators DEFAULT_OPERATORS;
     since_id := since_id;
     until_id := until_id;
     lookup_period := lookup_period;
     tweet_fields := or_default tweet_fields DEFAULT_TWEET_FIELDS;
     user_fields := or_default user_fields DEFAULT_USER_FIELDS;
     expansions := or_default expansions DEFAULT_EXPANSIONS;
     place_fields := or_default place_fields DEFAULT_PLACE_FIELDS;
     max_tweets := default DEFAULT_MAX_TWEETS max_tweets |}.

(** ** Python values and the store of records

    A dictionary is a mutable object: a value refers to it by its address
    in the store, so two values may denote the same record. Lists are only
    read by this module and are kept as values. Dictionary keys are strings,
    as in the decoded JSON pages the search client returns. *)

#[warnings="-register-all"] Inductive pyval :=
  | PNone
  | PBool (b : bool)
  | PInt (z : Z)
  | PStr (s : string)
  | PList (items : list pyval)
  | PRef (r : nat).

Abbreviation dict := (gmap string pyval).
Abbreviation store := (gmap nat (gmap string pyval)).

(** The exceptions that can leave [lookup]. [CollaboratorFailure] stands
    for whatever the search client raises; [InvalidReference] marks a
    reference the store does not bind, which no Python run produces. *)
Inductive exn :=
  | AttributeError (msg : string)
  | KeyError (key : pyval)
  | TypeError
  | IndexError
  | CollaboratorFailure (code : nat)
  | InvalidReference (r : nat).

Inductive outcome (A : Type) :=
  | Ok (a : A)
  | Raise (e : exn).
Arguments Ok {A} a.
Arguments Raise {A} e.

(** What a text-cleaner parse reports for one URL. Positions count
    characters, as [len] does on the text. *)
Record url_info := {
  start_index : Z;
  end_index : Z;
  match_ : string
}.

(** The keyword arguments of [gen_request_parameters]. *)
Record request_args := {
  rq_query : string;
  rq_results_per_call : Z;
  rq_place_fields : option string;
  rq_expansions : option string;
  rq_user_fields : option string;
  rq_tweet_fields : option string;
  rq_since_id : option Z;
  rq_until_id : option Z;
  rq_start_time : option string
}.

(** Calls to the collaborators and log lines, in the order they happen. *)
Inductive event :=
  | EvLoadCredentials (filename : option string) (env_overwrite : bool)
  | EvGenRequestParameters (args : request_args)
  | EvCollectResults (max_tweets : Z)
  | EvLogNoTweetsFound
  | EvLogMetaInfo (meta_info : pyval)
  | EvParse (text : pyval)
  | EvClean (text : pyval).

(** ** A state and error monad over the store, recording events *)

Record res (A : Type) := Res {
  out : outcome A;
  hp : store;
  evs : list event
}.
Arguments Res {A} out hp evs.
Arguments out {A} r.
Arguments hp {A} r.
Arguments evs {A} r.

Definition M (A : Type) : Type := store -> res A.

Definition ret {A} (a : A) : M A := fun h => Res (Ok a) h [].

Definition raise {A} (e : exn) : M A := fun h => Res (Raise e) h [].

Definition bind {A B} (m : M A) (k : A -> M B) : M B :=
  fun h =>
    match m h with
    | Res (Ok a) h1 e1 =>
        let r := k a h1 in Res (out r) (hp r) (e1 ++ evs r)
    | Res (Raise e) h1 e1 => Res (Raise e) h1 e1
    end.

Definition emit (e : event) : M unit := fun h => Res (Ok tt) h [e].

Definition lift {A} (o : outcome A) : M A := fun h => Res o h [].

Notation "'let!' x ':=' c1 'in' c2" := (bind c1 (fun x => c2))
  (at level 10, x name, c1 at level 100, c2 at level 200).
Notation "c1 ;; c2" := (bind c1 (fun _ => c2))
  (at level 100, c2 at level 200, right associativity).

(** [for x in xs: acc = body(acc, x)] *)
Fixpoint for_each {A B} (body : A -> B -> M A) (xs : list B) (acc : A) : M A :=
  match xs with
  | [] => ret acc
  | x :: rest => let! acc' := body acc x in for_each body rest acc'
  end.

(** ** The Python operations the module uses *)

(** [needle in hay] on strings. *)
Definition substring_in (needle hay : string) : bool :=
  match String.index 0 needle hay with
  | Some _ => true
  | None => false
  end.

Definition is_str (s : string) (v : pyval) : bool :=
  match v with
  | PStr t => String.eqb s t
  | _ => false
  end.

Definition chars (s : string) : list pyval := map PStr (utf8_chars s).

(** [len(v)] *)
Definition py_len (v : pyval) : M nat := fun h =>
  match v with
  | PStr s => Res (Ok (py_str_len s)) h []
  | PList l => Res (Ok (length l)) h []
  | PRef r =>
      match h !! r with
      | Some d => Res (Ok (size d)) h []
      | None => Res (Raise (InvalidReference r)) h []
      end
  | _ => Res (Raise TypeError) h []
  end.

(** [v[0]] *)
Definition py_first (v : pyval) : M pyval := fun h =>
  match v with
  | PStr s =>
      match utf8_chars s with
      | c :: _ => Res (Ok (PStr c)) h []
      | [] => Res (Raise IndexError) h []
      end
  | PList (x :: _) => Res (Ok x) h []
  | PList [] => Res (Raise IndexError) h []
  | PRef r =>
      match h !! r with
      | Some _ => Res (Raise (KeyError (PInt 0))) h []
      | None => Res (Raise (InvalidReference r)) h []
      end
  | _ => Res (Raise TypeError) h []
  end.

(** [key in v] for a string [key] *)
Definition py_contains (key : string) (v : pyval) : M bool := fun h =>
  match v with
  | PRef r =>
      match h !! r with
      | Some d => Res (Ok (bool_decide (is_Some (d !! key)))) h []
      | None => Res (Raise (InvalidReference r)) h []
      end
  | PStr s => Res (Ok (substring_in key s)) h []
  | PList l => Res (Ok (existsb (is_str key) l)) h []
  | _ => Res (Raise TypeError) h []
  end.

(** [v[key]] for a string [key] *)
Definition py_getitem (v : pyval) (key : string) : M pyval := fun h =>
  match v with
  | PRef r =>
      match h !! r with
      | Some d =>
          match d !! key with
          | Some x => Res (Ok x) h []
          | None => Res (Raise (KeyError (PStr key))) h []
          end
      | None => Res (Raise (InvalidReference r)) h []
      end
  | _ => Res (Raise TypeError) h []
  end.

(** [v[key] = x] for a string [key] *)
Definition py_setitem (v : pyval) (key : string) (x : pyval) : M unit := fun h =>
  match v with
  | PRef r =>
      match h !! r with
      | Some d => Res (Ok tt) (<[r := <[key := x]> d]> h) []
      | None => Res (Raise (InvalidReference r)) h []
      end
  | _ => Res (Raise TypeError) h []
  end.

(** The elements [for x in v] visits. *)
Definition py_iter (v : pyval) : M (list pyval) := fun h =>
  match v with
  | PList l => Res (Ok l) h []
  | PStr s => Res (Ok (chars s)) h []
  | PRef r =>
      match h !! r with
      | Some d => Res (Ok (map (fun kv => PStr kv.1) (map_to_list d))) h []
      | None => Res (Raise (InvalidReference r)) h []
      end
  | _ => Res (Raise TypeError) h []
  end.

(** Keys of the author map: the hashable values, with [True == 1] and
    [False == 0] as Python's dictionaries have it. *)
Inductive hkey :=
  | KNone
  | KInt (z : Z)
  | KStr (s : string).

#[global] Instance hkey_eq_dec : EqDecision hkey.
Proof. solve_decision. Defined.

#[global] Instance hkey_countable : Countable hkey.
Proof.
  refine (inj_countable'
    (fun k => match k with
              | KNone => inl ()
              | KInt z => inr (inl z)
              | KStr s => inr (inr s)
              end)
    (fun x => match x with
              | inl _ => KNone
              | inr (inl z) => KInt z
              | inr (inr s) => KStr s
              end) _).
  by intros [].
Defined.

Definition hash_key (v : pyval) : option hkey :=
  match v with
  | PNone => Some KNone
  | PBool b => Some (KInt (if b then 1 else 0))
  | PInt z => Some (KInt z)
  | PStr s => Some (KStr s)
  | PList _ => None
  | PRef _ => None
  end.

(** [hash(v)], as a dictionary lookup or update needs it: lists and
    dictionaries are unhashable. *)
Definition py_hash (v : pyval) : M hkey := fun h =>
  match hash_key v with
  | Some k => Res (Ok k) h []
  | None =>
      match v with
      | PRef r =>
          match h !! r with
          | Some _ => Res (Raise TypeError) h []
          | None => Res (Raise (InvalidReference r)) h []
          end
      | _ => Res (Raise TypeError) h []
      end
  end.

(** A value inside the text cleaner, once it has been called: it works on
    strings, and its regular-expression functions raise [TypeError] on
    anything else. *)
Definition as_str (v : pyval) : M string :=
  match v with
  | PStr s => ret s
  | _ => raise TypeError
  end.

(** ** TwitterSource *)

Module TwitterSource.

Definition name : string := "Twitter".

(** *** The query builder *)

(** The body of [for tokens in or_tokens_list]: one category appended to
    [or_tokens]. The inner [else] is kept as the source has it. *)
Definition or_tokens_step (or_tokens : list string)
    (tokens : option (list string)) : list string :=
  if truthy_list tokens then
    let ts := default [] tokens in
    if (0 <? length ts)%nat
    then or_tokens ++ [ "(" +:+ join " OR " ts +:+ ")" ]
    else or_tokens ++ [ join "" ts ]
  else or_tokens.

Definition or_tokens_of (keywords hashtags usernames : option (list string))
    : list string :=
  fold_left or_tokens_step [keywords; hashtags; usernames] [].

Definition or_query_str_of (or_tokens : list string) : string :=
  match or_tokens with
  | [] => ""
  | _ :: _ =>
      if (0 <? length or_tokens)%nat
      then join " OR " or_tokens
      else join "" or_tokens
  end.

Definition and_tokens_of (operators : option (list string)) : list string :=
  if truthy_list operators then [ join " " (default [] operators) ] else [].

Definition and_query_str_of (and_tokens : list string) : string :=
  match and_tokens with
  | [] => ""
  | _ :: _ =>
      match and_tokens with
      | _ :: _ => " (" +:+ join " " and_tokens +:+ ")"
      | [] => ""
      end
  end.

Definition _generate_query_string
    (query : option string)
    (keywords hashtags usernames operators : option (list string)) : string :=
  if truthy_str query then default "" query
  else
    let or_tokens := or_tokens_of keywords hashtags usernames in
    let and_tokens := and_tokens_of operators in
    or_query_str_of or_tokens +:+ and_query_str_of and_tokens.

(** Modelled from the spec: the [SourceResponse] class of
    [obsei/source/base_source.py], which is not part of the sources at hand;
    the normalised output carries the cleaned text, the tweet record (by
    reference) and the source label. *)
Record SourceResponse := {
  processed_text : string;
  meta : pyval;
  source_name : string
}.

Section Cleaner.

(** The text-cleaning collaborator ([preprocessor.clean] and
    [preprocessor.parse]); [parse] answers the [urls] attribute of the parse
    result, which is [None] when the text has no URL. *)
Variable clean : string -> string.
Variable parse : string -> option (list url_info).

Definition clean_tweet_text (tweet_text : pyval) : M string :=
  emit (EvClean tweet_text) ;;
  let! text := as_str tweet_text in
  ret (clean text).

(** The [for url_info in parsed_tweet.urls] loop with its [break]. *)
Fixpoint scan_urls (last_index : Z) (urls : list url_info) (tweet_url : pyval)
    : pyval :=
  match urls with
  | [] => tweet_url
  | url_info :: rest =>
      if (end_index url_info =? last_index)%Z
      then PStr (match_ url_info)
      else scan_urls last_index rest tweet_url
  end.

Definition get_tweet_url (tweet_text : pyval) : M pyval :=
  emit (EvParse tweet_text) ;;
  let! text := as_str tweet_text in
  let parsed_tweet_urls := parse text in
  let tweet_url := PNone in
  if negb (truthy_list parsed_tweet_urls) then ret tweet_url
  else
    let last_index := Z.of_nat (py_str_len text) in
    ret (scan_urls last_index (default [] parsed_tweet_urls) tweet_url).

Definition get_source_output (tweet : pyval) : M SourceResponse :=
  let! text1 := py_getitem tweet "text" in
  let! tweet_url := get_tweet_url text1 in
  let! text2 := py_getitem tweet "text" in
  let! processed_text := clean_tweet_text text2 in
  py_setitem tweet "tweet_url" tweet_url ;;
  ret {| processed_text := processed_text;
         meta := tweet;
         source_name := name |}.

(** *** Reshaping the result pages *)

(** The body of [for raw_output in tweets_output], on the triple
    [(tweets, users, meta_info)]. *)
Definition partition_step (acc : list pyval * pyval * pyval)
    (raw_output : pyval) : M (list pyval * pyval * pyval) :=
  let '(tweets, users, meta_info) := acc in
  let! is_tweet := py_contains "text" raw_output in
  if is_tweet then ret (tweets ++ [raw_output], users, meta_info)
  else
    let! is_users := py_contains "users" raw_output in
    if is_users then
      let! users' := py_getitem raw_output "users" in
      ret (tweets, users', meta_info)
    else
      let! is_meta := py_contains "meta" raw_output in
      if is_meta then
        let! meta_info' := py_getitem raw_output "meta" in
        ret (tweets, users, meta_info')
      else ret (tweets, users, meta_info).

Definition partition_pages (tweets_output : list pyval)
    : M (list pyval * pyval * pyval) :=
  for_each partition_step tweets_output ([], PList [], PNone).

(** [user_map[user["id"]] = user] *)
Definition user_map_step (user_map : gmap hkey pyval) (user : pyval)
    : M (gmap hkey pyval) :=
  let! id := py_getitem user "id" in
  let! k := py_hash id in
  ret (<[k := user]> user_map).

(** [if len(users) > 0 and "id" in users[0]: for user in users: ...] *)
Definition build_user_map (users : pyval) : M (gmap hkey pyval) :=
  let user_map : gmap hkey pyval := ∅ in
  let! n := py_len users in
  let! cond :=
    (if (0 <? n)%nat
     then let! first := py_first users in py_contains "id" first
     else ret false) in
  if cond then
    let! items := py_iter users in
    for_each user_map_step items user_map
  else ret user_map.

(** [if "author_id" in tweet and tweet["author_id"] in user_map:
       tweet["author_info"] = user_map.get(tweet["author_id"])] *)
Definition attach_author_info (user_map : gmap hkey pyval) (tweet : pyval)
    : M unit :=
  let! has_author := py_contains "author_id" tweet in
  let! cond :=
    (if has_author
     then let! author_id := py_getitem tweet "author_id" in
          let! k := py_hash author_id in
          ret (bool_decide (is_Some (user_map !! k)))
     else ret false) in
  if cond then
    let! author_id := py_getitem tweet "author_id" in
    let! k := py_hash author_id in
    py_setitem tweet "author_info" (default PNone (user_map !! k))
  else ret tt.

(** The body of [for tweet in tweets]. *)
Definition tweet_step (user_map : gmap hkey pyval)
    (source_responses : list SourceResponse) (tweet : pyval)
    : M (list SourceResponse) :=
  attach_author_info user_map tweet ;;
  let! response := get_source_output tweet in
  ret (source_responses ++ [response]).

(** Everything [lookup] does with a non-empty [tweets_output]. *)
Definition reshape (tweets_output : list pyval) : M (list SourceResponse) :=
  let! parts := partition_pages tweets_output in
  let '(tweets, users, meta_info) := parts in
  let! user_map := build_user_map users in
  emit (EvLogMetaInfo meta_info) ;;
  for_each (tweet_step user_map) tweets [].

Section Search.

(** The search collaborator ([searchtweets]): each operation either answers
    or fails. The records of the pages [collect_results] answers live in the
    store [lookup] runs on. *)
Context {auth request : Type}.
Variable load_credentials : option string -> bool -> outcome auth.
Variable gen_request_parameters : request_args -> outcome request.
Variable collect_results : request -> Z -> auth -> outcome (list pyval).

(** [",".join(xs) if xs is not None else None] *)
Definition join_fields (xs : option (list string)) : option string :=
  match xs with
  | Some l => Some (join "," l)
  | None => None
  end.

(** The condition of the guard that opens [lookup]:
    [not config.query and not config.keywords and not config.hashtags
     and config.usernames]. *)
Definition lookup_guard (config : TwitterSourceConfig) : bool :=
  negb (truthy_str (query config)) && negb (truthy_list (keywords config))
  && negb (truthy_list (hashtags config)) && truthy_list (usernames config).

(** The keyword arguments [lookup] passes to [gen_request_parameters]: the
    built query, the page size, the comma-joined field lists, the cursors
    and the time window. *)
Definition search_request_args (config : TwitterSourceConfig) : request_args :=
  let place_fields' := join_fields (place_fields config) in
  let user_fields' := join_fields (user_fields config) in
  let expansions' := join_fields (expansions config) in
  let tweet_fields' := join_fields (tweet_fields config) in
  let query' :=
    _generate_query_string (query config) (keywords config)
      (hashtags config) (usernames config) (operators config) in
  {| rq_query := query';
     rq_results_per_call := max_tweets config;
     rq_place_fields := place_fields';
     rq_expansions := expansions';
     rq_user_fields := user_fields';
     rq_tweet_fields := tweet_fields';
     rq_since_id := since_id config;
     rq_until_id := until_id config;
     rq_start_time := lookup_period config |}.

Definition lookup (config : TwitterSourceConfig) : M (list SourceResponse) :=
  if lookup_guard config then
    raise (AttributeError
      "At least one non empty parameter required (query, keywords, hashtags, and usernames)")
  else
    emit (EvLoadCredentials (twitter_config_filename config) true) ;;
    let! search_args :=
      lift (load_credentials (twitter_config_filename config) true) in
    let args := search_request_args config in
    emit (EvGenRequestParameters args) ;;
    let! search_query := lift (gen_request_parameters args) in
    emit (EvCollectResults (max_tweets config)) ;;
    let! tweets_output :=
      lift (collect_results search_query (max_tweets config) search_args) in
    match tweets_output with
    | [] => emit EvLogNoTweetsFound ;; ret []
    | _ :: _ => reshape tweets_output
    end.

End Search.
End Cleaner.
End TwitterSource.

Import TwitterSource.

(** ** Vocabulary of the statements *)

(** One parenthesised group per non-empty category. *)
Definition or_group (ts : list string) : string :=
  "(" +:+ join " OR " ts +:+ ")".

Definition category_terms (tokens : option (list string)) : list (list string) :=
  match tokens with
  | Some (t :: ts) => [t :: ts]
  | _ => []
  end.

(** The or-clause of the builder: [or_query_str] as the source computes it. *)
Definition or_clause (kw ht un : option (list string)) : string :=
  or_query_str_of (or_tokens_of kw ht un).

(** The trailing URL of a text, given the URLs a parse reports: the match of
    the first one that ends where the text ends, else [None]. *)
Definition trailing_url (urls : option (list url_info)) (text : string)
    : pyval :=
  match find (fun u => (end_index u =? Z.of_nat (py_str_len text))%Z)
             (default [] urls) with
  | Some u => PStr (match_ u)
  | None => PNone
  end.

(** A computation that only reads the store. *)
Definition reads_only {A} (m : M A) : Prop := forall h, hp (m h) = h.

(** [u] is a user record of the store whose ["id"] hashes to [k]. *)
Definition is_user (h : store) (u : pyval) (k : hkey) : Prop :=
  exists r d id,
    u = PRef r /\ h !! r = Some d /\ d !! "id" = Some id
    /\ hash_key id = Some k.

(** One more author in the map: a later record replaces an earlier one
    with the same id. *)
Definition add_user (m : gmap hkey pyval) (ku : hkey * pyval)
    : gmap hkey pyval :=
  <[ku.1 := ku.2]> m.

(** ** Sample data

    A text cleaner that knows two texts, and a store with one author record,
    two tweets by that author, a users page, a metadata page and a page of
    no known shape. *)

Definition sample_url : string := "https://x.co/abc".

Definition sample_clean (text : string) : string :=
  if String.eqb text "Check this out https://x.co/abc" then "Check this out"
  else if String.eqb text "https://x.co/abc is cool" then "is cool"
  else text.

Definition sample_parse (text : string) : option (list url_info) :=
  if String.eqb text "Check this out https://x.co/abc" then
    Some [ {| start_index := 15; end_index := 31; match_ := sample_url |} ]
  else if String.eqb text "https://x.co/abc is cool" then
    Some [ {| start_index := 0; end_index := 16; match_ := sample_url |} ]
  else None.

Definition sample_author : dict :=
  <["id" := PStr "u1"]> (<["username" := PStr "ann"]> ∅).

Definition sample_tweet : dict :=
  <["text" := PStr "Check this out https://x.co/abc"]>
    (<["author_id" := PStr "u1"]> (<["id" := PStr "t1"]> ∅)).

Definition sample_tweet2 : dict :=
  <["text" := PStr "https://x.co/abc is cool"]>
    (<["author_id" := PStr "u1"]> (<["tweet_url" := PStr "stale"]> ∅)).

Definition sample_users_page : dict :=
  <["users" := PList [PRef 1]]> ∅.

Definition sample_meta_page : dict :=
  <["meta" := PRef 6]> (<["users" := PList []]> ∅).

Definition sample_unknown_page : dict :=
  <["errors" := PList []]> ∅.

Definition sample_store : store :=
  <[1 := sample_author]> (<[2 := sample_tweet]> (<[3 := sample_tweet2]>
  (<[4 := sample_users_page]> (<[5 := sample_unknown_page]>
  (<[6 := (∅ : dict)]> (<[7 := sample_meta_page]> ∅)))))).

(** A search client that accepts every request, and two answers for
    [collect_results]: no page at all, and the pages of the sample store. *)
Definition sample_load_credentials (filename : option string)
    (env_overwrite : bool) : outcome unit :=
  Ok tt.

Definition sample_gen_request_parameters (args : request_args)
    : outcome string :=
  Ok (rq_query args).

Definition sample_collect_nothing (search_query : string) (max_tweets : Z)
    (result_stream_args : unit) : outcome (list pyval) :=
  Ok [].

Definition sample_collect_pages (search_query : string) (max_tweets : Z)
    (result_stream_args : unit) : outcome (list pyval) :=
  Ok [PRef 4; PRef 2; PRef 5; PRef 3].

(** [TwitterSourceConfig()] and [TwitterSourceConfig(keywords=["foo", "bar"])]. *)
Definition sample_empty_config : TwitterSourceConfig :=
  TwitterSourceConfig_init None None None None None None None None None
    None None None None None.

Definition sample_keyword_config : TwitterSourceConfig :=
  TwitterSourceConfig_init None None (Some ["foo"; "bar"]) None None None
    None None None None None None None None.

(** [TwitterSourceConfig(usernames=["@ann"])]. *)
Definition sample_username_config : TwitterSourceConfig :=
  TwitterSourceConfig_init None None None None (Some ["@ann"]) None
    None None None None None None None None.

(** ** Vocabulary of the further properties *)

(** The and-clause of the builder: the operators in one pair of parentheses
    after a space, or nothing when there is no operator. *)
Definition and_clause (operators : option (list string)) : string :=
  match operators with
  | Some (op :: ops) => " (" +:+ join " " (op :: ops) +:+ ")"
  | _ => ""
  end.

(** The second store has the records of the first, each with the keys it
    had and the values they had, save for ["author_info"] and
    ["tweet_url"]. *)
Definition annotated (h h' : store) : Prop :=
  forall r,
    match h !! r, h' !! r with
    | Some d, Some d' =>
        forall k, k <> "author_info" -> k <> "tweet_url" -> d' !! k = d !! k
    | None, None => True
    | _, _ => False
    end.

(** Events that are not calls to the search client. *)
Definition no_search (e : event) : Prop :=
  match e with
  | EvLoadCredentials _ _ | EvGenRequestParameters _ | EvCollectResults _ =>
      False
  | _ => True
  end.

(** A computation that leaves the store [annotated] and emits only events
    that satisfy [Q]. *)
Definition respects (Q : event -> Prop) {A} (m : M A) : Prop :=
  forall h, annotated h (hp (m h)) /\ Forall Q (evs (m h)).

(** Search clients that fail: at the credentials, at the request, at the
    search itself. *)
Definition sample_load_fails (filename : option string)
    (env_overwrite : bool) : outcome unit :=
  Raise (CollaboratorFailure 401).

Definition sample_gen_request_fails (args : request_args) : outcome string :=
  Raise (CollaboratorFailure 400).

Definition sample_collect_fails (search_query : string) (max_tweets : Z)
    (result_stream_args : unit) : outcome (list pyval) :=
  Raise (CollaboratorFailure 503).

(** [TwitterSourceConfig(query="from:ann has:links", usernames=["@ann"])]. *)
Definition sample_query_config : TwitterSourceConfig :=
  TwitterSourceConfig_init None (Some "from:ann has:links") None None
    (Some ["@ann"]) None None None None None None None None None.

(** The value a record binds to a key; [None] when the value is no record
    of the store or the record has no such key. *)
Definition record_get (h : store) (key : string) (v : pyval) : option pyval :=
  match v with
  | PRef r => h !! r ≫= (.!! key)
  | _ => None
  end.

Definition record_has (h : store) (key : string) (v : pyval) : bool :=
  bool_decide (is_Some (record_get h key v)).

Definition is_record (h : store) (v : pyval) : Prop :=
  exists r d, v = PRef r /\ h !! r = Some d.

(** The users list a page contributes: that of a page with ["users"] and
    without ["text"]. *)
Definition users_page (h : store) (v : pyval) : option pyval :=
  if record_has h "text" v then None else record_get h "users" v.

(** The metadata a page contributes: that of a page with ["meta"] and with
    neither ["text"] nor ["users"]. *)
Definition meta_page (h : store) (v : pyval) : option pyval :=
  if record_has h "text" v || record_has h "users" v then None
  else record_get h "meta" v.

(** The records bound to [k] in a list of ids and records, in list order. *)
Definition users_with_key (k : hkey) (kus : list (hkey * pyval)) : list pyval :=
  omap (fun ku => if decide (ku.1 = k) then Some ku.2 else None) kus.

(** The sample store with two more author records: another author, and a
    second record for the first author's id. *)
Definition sample_author2 : dict :=
  <["id" := PStr "u2"]> (<["username" := PStr "bob"]> ∅).

Definition sample_author_renamed : dict :=
  <["id" := PStr "u1"]> (<["username" := PStr "ann_v2"]> ∅).

Definition sample_store2 : store :=
  <[8 := sample_author2]> (<[9 := sample_author_renamed]> sample_store).

(** The text of a tweet record (the empty string when there is none). *)
Definition tweet_text_of (d : dict) : string :=
  match d !! "text" with
  | Some (PStr s) => s
  | _ => ""
  end.

Definition text_at (h : store) (r : nat) : string :=
  default "" (tweet_text_of <$> h !! r).

(** The author record the map holds for a tweet record, if any. *)
Definition known_author (um : gmap hkey pyval) (d : dict) : option pyval :=
  match d !! "author_id" with
  | Some a =>
      match hash_key a with
      | Some k => um !! k
      | None => None
      end
  | None => None
  end.

(** A tweet record as one turn of the loop over the tweets leaves it: with
    the author's record, when the map knows the author, and with the
    trailing URL of its text. *)
Definition annotate (parse : string -> option (list url_info))
    (um : gmap hkey pyval) (d : dict) : dict :=
  let d1 := match known_author um d with
            | Some u => <["author_info" := u]> d
            | None => d
            end in
  <["tweet_url" := trailing_url (parse (tweet_text_of d)) (tweet_text_of d)]> d1.

(** The author id of a record, when it has one, is hashable. *)
Definition author_ok (d : dict) : Prop :=
  match d !! "author_id" with
  | Some a => is_Some (hash_key a)
  | None => True
  end.

(** [r] is a tweet record whose text is a string. *)
Definition wf_tweet (h : store) (r : nat) : Prop :=
  exists d text,
    h !! r = Some d /\ d !! "text" = Some (PStr text) /\ author_ok d.

(** The response for the tweet record at [r], and the calls to the text
    cleaner that produce it. *)
Definition response_at (clean : string -> string) (h : store) (r : nat)
    : SourceResponse :=
  {| processed_text := clean (text_at h r);
     meta := PRef r;
     source_name := "Twitter" |}.

Definition cleaner_events (h : store) (r : nat) : list event :=
  [EvParse (PStr (text_at h r)); EvClean (PStr (text_at h r))].

(** [r] is a page the reshaping can digest: a record; when it has a
    ["text"], the text is a string and the author id, if any, is hashable;
    when it has ["users"] and no ["text"], the users are records with
    hashable ids. *)
Definition wf_page (h : store) (r : nat) : Prop :=
  exists d,
    h !! r = Some d
    /\ match d !! "text" with
       | Some t => (exists text, t = PStr text) /\ author_ok d
       | None =>
           match d !! "users" with
           | Some us =>
               exists users keys,
                 us = PList users /\ Forall2 (is_user h) users keys
           | None => True
           end
       end.

(** A parse of a text that does not fit in ASCII: positions count
    characters, so the URL of ["€5 off https://x.co/abc"] ends at 23. *)
Definition sample_parse_euro (text : string) : option (list url_info) :=
  if String.eqb text "€5 off https://x.co/abc" then
    Some [ {| start_index := 7; end_index := 23; match_ := sample_url |} ]
  else None.

(** More sample pages: a users page whose first user has no id, a page with
    metadata only, and a tweet that also has ["users"] and ["meta"]. *)
Definition sample_users_page_first_without_id : dict :=
  <["users" := PList [PRef 5; PRef 1]]> ∅.

Definition sample_meta_only_page : dict :=
  <["meta" := PRef 6]> ∅.

Definition sample_tweet_with_users : dict :=
  <["text" := PStr "plain"]>
    (<["users" := PList [PRef 8]]> (<["meta" := PNone]> ∅)).

Definition sample_store3 : store :=
  <[10 := sample_users_page_first_without_id]>
    (<[11 := sample_meta_only_page]>
       (<[12 := sample_tweet_with_users]> sample_store2)).

Definition sample_collect_mixed (search_query : string) (max_tweets : Z)
    (result_stream_args : unit) : outcome (list pyval) :=
  Ok (PRef <$> [4; 11; 12; 5; 2]).

Definition sample_collect_first_without_id (search_query : string)
    (max_tweets : Z) (result_stream_args : unit) : outcome (list pyval) :=
  Ok (PRef <$> [10; 2]).

(** * Properties *)

(** ** The monad *)

Lemma res_eta {A} (r : res A) : Res (out r) (hp r) (evs r) = r.
Proof. by destruct r. Qed.

Lemma bind_ok {A B} (m : M A) (k : A -> M B) h a h1 e1 :
  m h = Res (Ok a) h1 e1 ->
  bind m k h = Res (out (k a h1)) (hp (k a h1)) (e1 ++ evs (k a h1)).
Proof. intros Hm. unfold bind. by rewrite Hm. Qed.

Lemma bind_pure {A B} (m : M A) (k : A -> M B) h a :
  m h = Res (Ok a) h [] -> bind m k h = k a h.
Proof. intros Hm. rewrite (bind_ok _ _ _ _ _ _ Hm). apply res_eta. Qed.

Lemma bind_raise {A B} (m : M A) (k : A -> M B) h e h1 e1 :
  m h = Res (Raise e) h1 e1 -> bind m k h = Res (Raise e) h1 e1.
Proof. intros Hm. unfold bind. by rewrite Hm. Qed.

Lemma bind_ret {A B} (a : A) (k : A -> M B) h : bind (ret a) k h = k a h.
Proof. by apply bind_pure. Qed.

Lemma bind_lift_ok {A B} (o : outcome A) (a : A) (k : A -> M B) h :
  o = Ok a -> bind (lift o) k h = k a h.
Proof. intros ->. by apply bind_pure. Qed.

Lemma bind_emit {B} (e : event) (k : unit -> M B) h :
  bind (emit e) k h = Res (out (k tt h)) (hp (k tt h)) (e :: evs (k tt h)).
Proof. reflexivity. Qed.

Lemma for_each_app {A B} (body : A -> B -> M A) xs ys acc h :
  for_each body (xs ++ ys) acc h =
  bind (for_each body xs acc) (for_each body ys) h.
Proof.
  revert acc h. induction xs as [|x xs IH]; intros acc h; simpl.
  - by rewrite bind_ret.
  - unfold bind.
    destruct (body acc x h) as [[a|e] h1 e1]; simpl; [|done].
    rewrite IH. unfold bind.
    destruct (for_each body xs a h1) as [[a'|e'] h2 e2]; simpl; [|done].
    by rewrite app_assoc.
Qed.

(** ** The query builder *)

Lemma append_empty_r (s : string) : s +:+ "" = s.
Proof.
  induction s as [|c s IH]; [reflexivity|].
  change (String c (s +:+ "") = String c s). by f_equal.
Qed.

Lemma truthy_str_Some q : q <> "" -> truthy_str (Some q) = true.
Proof.
  intros Hq. simpl. destruct (String.eqb_spec q ""); [done|reflexivity].
Qed.

Lemma truthy_list_Some_cons {A} (l : list A) :
  l <> [] -> truthy_list (Some l) = true.
Proof. by destruct l. Qed.

Lemma or_tokens_step_group acc tokens :
  or_tokens_step acc tokens = acc ++ map or_group (category_terms tokens).
Proof.
  destruct tokens as [[|t ts]|]; simpl; by rewrite ?app_nil_r.
Qed.

Lemma or_tokens_of_groups kw ht un :
  or_tokens_of kw ht un =
  map or_group (category_terms kw ++ category_terms ht ++ category_terms un).
Proof.
  unfold or_tokens_of. simpl. rewrite !or_tokens_step_group.
  rewrite !map_app. simpl. by rewrite <- app_assoc.
Qed.

Lemma or_query_str_of_join l : or_query_str_of l = join " OR " l.
Proof. by destruct l. Qed.

(** What the builder answers without a free-text query and without
    operators: the groups of the non-empty categories, in the order
    keywords, hashtags, usernames, separated by [" OR "]. *)
Lemma generate_query_string_or_clause q kw ht un :
  truthy_str q = false ->
  _generate_query_string q kw ht un None =
  join " OR "
    (map or_group (category_terms kw ++ category_terms ht ++ category_terms un)).
Proof.
  intros Hq. unfold _generate_query_string. rewrite Hq. simpl.
  rewrite or_query_str_of_join, or_tokens_of_groups.
  unfold and_query_str_of, and_tokens_of. simpl.
  apply append_empty_r.
Qed.

(** C2. Without a free-text query, every non-empty category is rendered as
    one parenthesised group and the groups follow each other in the order
    keywords, hashtags, usernames with [" OR "] between them. Inside a
    group the terms are joined by [" OR "], so the separator occurs there
    only when the category has more than one term: a category of one term
    [t] is rendered ["(t)"]. *)
Theorem generate_query_string_categories
    (q : option string) (kw ht un ops : option (list string)) :
  truthy_str q = false ->
  _generate_query_string q kw ht un None
  = join " OR "
      (map or_group (category_terms kw ++ category_terms ht ++ category_terms un))
  /\ _generate_query_string q kw ht un ops
     = _generate_query_string q kw ht un None
       +:+ and_query_str_of (and_tokens_of ops)
  /\ (forall t, or_group [t] = "(" +:+ t +:+ ")")
  /\ (forall t1 t2 ts,
        or_group (t1 :: t2 :: ts)
        = "(" +:+ (t1 +:+ " OR " +:+ join " OR " (t2 :: ts)) +:+ ")")
  /\ (forall t ts, category_terms (Some (t :: ts)) = [t :: ts])
  /\ category_terms (Some []) = [] /\ category_terms None = []
  /\ _generate_query_string None (Some ["foo"]) None None None = "(foo)"
  /\ _generate_query_string None (Some ["a"; "b"]) (Some ["#x"])
       (Some ["@u"; "@v"]) None
     = "(a OR b) OR (#x) OR (@u OR @v)"
  /\ _generate_query_string None None (Some ["#x"; "#y"]) (Some ["@u"]) None
     = "(#x OR #y) OR (@u)".
Proof.
  intros Hq. split; [by apply generate_query_string_or_clause|].
  split.
  { unfold _generate_query_string. rewrite Hq. simpl.
    by rewrite append_empty_r. }
  repeat split.
Qed.

Lemma generate_query_string_categories_witness :
  truthy_str (Some "") = false
  /\ _generate_query_string (Some "") (Some ["foo"]) (Some [])
       (Some ["@u"; "@v"]) None
     = "(foo) OR (@u OR @v)".
Proof.
  split; [reflexivity|].
  destruct (generate_query_string_categories (Some "") (Some ["foo"])
    (Some []) (Some ["@u"; "@v"]) None eq_refl) as [H _].
  rewrite H. reflexivity.
Defined.

(** C3. A non-empty free-text query is returned verbatim, whatever the
    keywords, hashtags, usernames and operators are. *)
Theorem generate_query_string_explicit
    (q : string) (kw ht un ops : option (list string)) :
  q <> "" -> _generate_query_string (Some q) kw ht un ops = q.
Proof.
  intros Hq. unfold _generate_query_string.
  by rewrite (truthy_str_Some q Hq).
Qed.

Lemma generate_query_string_explicit_witness :
  "explicit" <> ""
  /\ _generate_query_string (Some "explicit") (Some ["foo"; "bar"])
       (Some ["#x"]) (Some ["@u"]) (Some ["-is:reply"]) = "explicit".
Proof.
  split; [done|]. by apply generate_query_string_explicit.
Defined.

(** C4. Without a free-text query, a non-empty operator list is joined by
    single spaces, wrapped in one pair of parentheses and appended to the
    or-clause after a single space; an empty or absent operator list leaves
    the or-clause alone. *)
Theorem generate_query_string_operators
    (q : option string) (kw ht un : option (list string))
    (op : string) (ops : list string) :
  truthy_str q = false ->
  _generate_query_string q kw ht un (Some (op :: ops)) =
    or_clause kw ht un +:+ " " +:+ "(" +:+ join " " (op :: ops) +:+ ")"
  /\ _generate_query_string q kw ht un (Some []) = or_clause kw ht un
  /\ _generate_query_string q kw ht un None = or_clause kw ht un
  /\ _generate_query_string None (Some ["foo"; "bar"]) None None
       (Some ["-is:reply"]) = "(foo OR bar) (-is:reply)".
Proof.
  intros Hq. unfold _generate_query_string, or_clause. rewrite Hq.
  split; [reflexivity|].
  split; [apply append_empty_r|].
  split; [apply append_empty_r|reflexivity].
Qed.

Lemma generate_query_string_operators_witness :
  truthy_str (Some "") = false
  /\ _generate_query_string (Some "") (Some ["foo"]) (Some ["#a"; "#b"]) None
    (Some ["-is:reply"; "-is:retweet"]) =
  "(foo) OR (#a OR #b) (-is:reply -is:retweet)".
Proof.
  split; [reflexivity|].
  destruct (generate_query_string_operators (Some "") (Some ["foo"])
    (Some ["#a"; "#b"]) None "-is:reply" ["-is:retweet"] eq_refl) as [H _].
  rewrite H. reflexivity.
Defined.

(** ** Reading and writing records *)

Section Records.

Variables (h : store) (r : nat) (d : dict).
Hypothesis Hr : h !! r = Some d.

Lemma py_contains_record key :
  py_contains key (PRef r) h = Res (Ok (bool_decide (is_Some (d !! key)))) h [].
Proof. unfold py_contains. by rewrite Hr. Qed.

Lemma py_contains_present key x :
  d !! key = Some x -> py_contains key (PRef r) h = Res (Ok true) h [].
Proof.
  intros Hk. rewrite py_contains_record, Hk.
  by rewrite bool_decide_eq_true_2.
Qed.

Lemma py_contains_absent key :
  d !! key = None -> py_contains key (PRef r) h = Res (Ok false) h [].
Proof.
  intros Hk. rewrite py_contains_record, Hk.
  rewrite bool_decide_eq_false_2; [done|]. by intros [? ?].
Qed.

Lemma py_getitem_present key x :
  d !! key = Some x -> py_getitem (PRef r) key h = Res (Ok x) h [].
Proof. intros Hk. unfold py_getitem. by rewrite Hr, Hk. Qed.

Lemma py_getitem_absent key :
  d !! key = None ->
  py_getitem (PRef r) key h = Res (Raise (KeyError (PStr key))) h [].
Proof. intros Hk. unfold py_getitem. by rewrite Hr, Hk. Qed.

Lemma py_setitem_record key x :
  py_setitem (PRef r) key x h = Res (Ok tt) (<[r := <[key := x]> d]> h) [].
Proof. unfold py_setitem. by rewrite Hr. Qed.

End Records.

Lemma py_hash_key v k h : hash_key v = Some k -> py_hash v h = Res (Ok k) h [].
Proof. intros Hk. unfold py_hash. by rewrite Hk. Qed.

(** ** URL extraction and the normaliser *)

Section Normaliser.

Variable clean : string -> string.
Variable parse : string -> option (list url_info).

Lemma scan_urls_find last_index urls :
  scan_urls last_index urls PNone =
  match find (fun u => (end_index u =? last_index)%Z) urls with
  | Some u => PStr (match_ u)
  | None => PNone
  end.
Proof.
  induction urls as [|u urls IH]; simpl; [done|].
  by destruct (end_index u =? last_index)%Z.
Qed.

Lemma get_tweet_url_eq text h :
  get_tweet_url parse (PStr text) h =
  Res (Ok (trailing_url (parse text) text)) h [EvParse (PStr text)].
Proof.
  unfold get_tweet_url, trailing_url. rewrite bind_emit. simpl as_str.
  rewrite bind_ret, scan_urls_find.
  by destruct (parse text) as [[|u urls]|].
Qed.

Lemma get_source_output_record h r d text :
  h !! r = Some d ->
  d !! "text" = Some (PStr text) ->
  get_source_output clean parse (PRef r) h =
  Res (Ok {| processed_text := clean text;
             meta := PRef r;
             source_name := "Twitter" |})
      (<[r := <["tweet_url" := trailing_url (parse text) text]> d]> h)
      [EvParse (PStr text); EvClean (PStr text)].
Proof.
  intros Hr Ht. unfold get_source_output.
  rewrite (bind_pure _ _ _ _ (py_getitem_present h r d Hr _ _ Ht)).
  rewrite (bind_ok _ _ _ _ _ _ (get_tweet_url_eq text h)).
  rewrite (bind_pure _ _ _ _ (py_getitem_present h r d Hr _ _ Ht)).
  unfold clean_tweet_text. unfold bind at 1. simpl.
  rewrite (bind_ok _ _ _ _ _ _ (py_setitem_record h r d Hr _ _)).
  reflexivity.
Qed.

Lemma find_first_match {A} (f : A -> bool) pre u post :
  Forall (fun v => f v = false) pre -> f u = true ->
  find f (pre ++ u :: post) = Some u.
Proof.
  intros Hpre Hu. induction Hpre as [|v pre Hv _ IH]; simpl.
  - by rewrite Hu.
  - by rewrite Hv.
Qed.

Lemma find_no_match {A} (f : A -> bool) l :
  Forall (fun v => f v = false) l -> find f l = None.
Proof.
  intros Hl. induction Hl as [|v l Hv _ IH]; simpl; [done|]. by rewrite Hv.
Qed.

Lemma trailing_url_first urls text pre u post :
  urls = Some (pre ++ u :: post) ->
  Forall (fun v => end_index v <> Z.of_nat (py_str_len text)) pre ->
  end_index u = Z.of_nat (py_str_len text) ->
  trailing_url urls text = PStr (match_ u).
Proof.
  intros -> Hpre Hu. unfold trailing_url. simpl.
  rewrite (find_first_match _ pre u post); [done| |by apply Z.eqb_eq].
  eapply Forall_impl; [exact Hpre|]. intros v Hv. by apply Z.eqb_neq.
Qed.

Lemma trailing_url_none urls text :
  Forall (fun v => end_index v <> Z.of_nat (py_str_len text))
    (default [] urls) ->
  trailing_url urls text = PNone.
Proof.
  intros Hl. unfold trailing_url. rewrite find_no_match; [done|].
  eapply Forall_impl; [exact Hl|]. intros v Hv. by apply Z.eqb_neq.
Qed.

End Normaliser.

(** C7. URL extraction answers the match of the first URL the parse reports
    whose end position is the length of the text, counted in characters as
    the parse counts positions, and [None] when the parse reports no URL or
    none that ends there; the store is left as it was. *)
Theorem get_tweet_url_trailing
    (parse : string -> option (list url_info)) (text : string) (h : store) :
  let res := get_tweet_url parse (PStr text) h in
  let len := Z.of_nat (py_str_len text) in
  hp res = h
  /\ out res = Ok (trailing_url (parse text) text)
  /\ (forall pre u post,
        parse text = Some (pre ++ u :: post) ->
        Forall (fun v => end_index v <> len) pre ->
        end_index u = len ->
        out res = Ok (PStr (match_ u)))
  /\ (parse text = None \/ parse text = Some [] -> out res = Ok PNone)
  /\ (forall urls,
        parse text = Some urls ->
        Forall (fun v => end_index v <> len) urls ->
        out res = Ok PNone)
  /\ out (get_tweet_url sample_parse
            (PStr "Check this out https://x.co/abc") h)
     = Ok (PStr "https://x.co/abc")
  /\ out (get_tweet_url sample_parse (PStr "https://x.co/abc is cool") h)
     = Ok PNone
  /\ py_str_len "€5 off https://x.co/abc" = 23
  /\ out (get_tweet_url sample_parse_euro (PStr "€5 off https://x.co/abc") h)
     = Ok (PStr "https://x.co/abc").
Proof.
  intros res len. subst res len. rewrite !get_tweet_url_eq. simpl.
  split; [done|]. split; [done|]. split.
  { intros pre u post Hp Hpre Hu. f_equal.
    by apply (trailing_url_first _ _ pre u post). }
  split.
  { by intros [-> | ->]. }
  split.
  { intros urls Hp Hall. f_equal. apply trailing_url_none. by rewrite Hp. }
  repeat split.
Qed.

(** The normaliser applied a second time to the same value, in the store
    the first call left, does exactly what the first call did: the same
    response or the same exception, the same events, the same store. *)
Lemma get_source_output_twice
    (clean : string -> string) (parse : string -> option (list url_info))
    (tweet : pyval) (h : store) :
  get_source_output clean parse tweet
    (hp (get_source_output clean parse tweet h))
  = get_source_output clean parse tweet h.
Proof.
  destruct tweet as [| | | |l|r]; try reflexivity.
  destruct (h !! r) as [d|] eqn:Hr.
  2:{ unfold get_source_output, bind, py_getitem. by rewrite Hr; simpl; rewrite Hr. }
  destruct (d !! "text") as [v|] eqn:Ht.
  2:{ unfold get_source_output.
      rewrite (bind_raise _ _ _ _ _ _ (py_getitem_absent h r d Hr _ Ht)).
      simpl.
      by rewrite (bind_raise _ _ _ _ _ _ (py_getitem_absent h r d Hr _ Ht)). }
  assert (Hraise : forall h', h' !! r = Some d ->
      (forall text, v <> PStr text) ->
      get_source_output clean parse (PRef r) h'
      = Res (Raise TypeError) h' [EvParse v]).
  { intros h' Hr' Hv. unfold get_source_output.
    rewrite (bind_pure _ _ _ _ (py_getitem_present h' r d Hr' _ _ Ht)).
    destruct v as [| | |text| |]; try reflexivity. by destruct (Hv text). }
  destruct v as [| | |text| |];
    try (rewrite (Hraise h Hr) by done; simpl; by apply Hraise).
  rewrite (get_source_output_record clean parse h r d text Hr Ht). simpl.
  set (d1 := <["tweet_url" := trailing_url (parse text) text]> d).
  assert (Hr1 : <[r := d1]> h !! r = Some d1) by apply lookup_insert_eq.
  assert (Ht1 : d1 !! "text" = Some (PStr text)).
  { unfold d1. by rewrite lookup_insert_ne. }
  rewrite (get_source_output_record clean parse _ r d1 text Hr1 Ht1).
  unfold d1. by rewrite insert_insert_eq, insert_insert_eq.
Qed.

(** C10. The normaliser writes into the record it is given: after the call
    the record has the key ["tweet_url"], bound to the extracted trailing URL
    or [None]; every other key keeps its value; the keys are those it had
    and ["tweet_url"] (one key more when it was not there before); no other
    record of the store changes; and [meta] of the response is the reference
    to that very record. *)
Theorem get_source_output_mutates_input
    (clean : string -> string) (parse : string -> option (list url_info))
    (h : store) (r : nat) (d : dict) (text : string) :
  h !! r = Some d ->
  d !! "text" = Some (PStr text) ->
  let res := get_source_output clean parse (PRef r) h in
  exists (resp : SourceResponse) (d' : dict),
    out res = Ok resp
    /\ meta resp = PRef r
    /\ hp res !! r = Some d'
    /\ d' !! "tweet_url" = Some (trailing_url (parse text) text)
    /\ (trailing_url (parse text) text = PNone
        \/ exists u, trailing_url (parse text) text = PStr u)
    /\ (forall k, k <> "tweet_url" -> d' !! k = d !! k)
    /\ dom d' = dom d ∪ {["tweet_url"]}
    /\ (d !! "tweet_url" = None -> size d' = S (size d))
    /\ (forall r', r' <> r -> hp res !! r' = h !! r').
Proof.
  intros Hr Ht res. subst res.
  rewrite (get_source_output_record clean parse h r d text Hr Ht). simpl.
  eexists _, _. split; [reflexivity|]. split; [reflexivity|].
  split; [apply lookup_insert_eq|].
  split; [apply lookup_insert_eq|].
  split.
  { unfold trailing_url. destruct (find _ _); eauto. }
  split; [intros k Hk; by apply lookup_insert_ne|].
  split; [rewrite dom_insert_L; apply (comm_L (∪))|].
  split; [intros Hn; by apply map_size_insert_None|].
  intros r' Hr'. by apply lookup_insert_ne.
Qed.

Lemma get_source_output_mutates_input_witness :
  sample_store !! 2 = Some sample_tweet
  /\ sample_tweet !! "text" = Some (PStr "Check this out https://x.co/abc")
  /\ hp (get_source_output sample_clean sample_parse (PRef 2) sample_store)
       !! 2 ≫= (.!! "tweet_url") = Some (PStr "https://x.co/abc").
Proof.
  split; [reflexivity|]. split; [reflexivity|].
  destruct (get_source_output_mutates_input sample_clean sample_parse
    sample_store 2 sample_tweet "Check this out https://x.co/abc"
    eq_refl eq_refl) as (resp & d' & _ & _ & Hd' & Hurl & _).
  rewrite Hd'. simpl. rewrite Hurl. reflexivity.
Defined.

(** C9. Normalising the same record twice gives the same response both
    times: the cleaned text, the attached URL, the record and the source
    label agree, and the second call leaves the store as the first one
    left it. *)
Theorem get_source_output_idempotent
    (clean : string -> string) (parse : string -> option (list url_info))
    (h : store) (r : nat) (d : dict) (text : string) :
  h !! r = Some d ->
  d !! "text" = Some (PStr text) ->
  let first := get_source_output clean parse (PRef r) h in
  let second := get_source_output clean parse (PRef r) (hp first) in
  exists resp : SourceResponse,
    out first = Ok resp
    /\ out second = Ok resp
    /\ processed_text resp = clean text
    /\ source_name resp = "Twitter"
    /\ meta resp = PRef r
    /\ hp second = hp first
    /\ hp first !! r ≫= (.!! "tweet_url")
       = Some (trailing_url (parse text) text).
Proof.
  intros Hr Ht first second. subst first second.
  rewrite (get_source_output_record clean parse h r d text Hr Ht). simpl.
  set (d1 := <["tweet_url" := trailing_url (parse text) text]> d).
  assert (Hr1 : <[r := d1]> h !! r = Some d1) by apply lookup_insert_eq.
  assert (Ht1 : d1 !! "text" = Some (PStr text)).
  { unfold d1. by rewrite lookup_insert_ne. }
  rewrite (get_source_output_record clean parse _ r d1 text Hr1 Ht1). simpl.
  eexists. split; [reflexivity|]. split; [reflexivity|].
  split; [reflexivity|]. split; [reflexivity|]. split; [reflexivity|].
  split.
  - unfold d1. by rewrite insert_insert_eq, insert_insert_eq.
  - rewrite Hr1. simpl. unfold d1. apply lookup_insert_eq.
Qed.

Lemma get_source_output_idempotent_witness :
  sample_store !! 3 = Some sample_tweet2
  /\ sample_tweet2 !! "text" = Some (PStr "https://x.co/abc is cool")
  /\ out (get_source_output sample_clean sample_parse (PRef 3)
            (hp (get_source_output sample_clean sample_parse (PRef 3)
                   sample_store)))
     = Ok {| processed_text := "is cool"; meta := PRef 3;
             source_name := "Twitter" |}.
Proof.
  split; [reflexivity|]. split; [reflexivity|].
  destruct (get_source_output_idempotent sample_clean sample_parse
    sample_store 3 sample_tweet2 "https://x.co/abc is cool"
    eq_refl eq_refl) as (resp & _ & H2 & Hp & Hs & Hm & _).
  rewrite H2. destruct resp as [p m s]; simpl in *.
  by rewrite Hp, Hs, Hm.
Defined.

(** ** Partitioning the pages *)

Lemma reads_only_ret {A} (a : A) : reads_only (ret a).
Proof. by intros h. Qed.

Lemma reads_only_bind {A B} (m : M A) (k : A -> M B) :
  reads_only m -> (forall a, reads_only (k a)) -> reads_only (bind m k).
Proof.
  intros Hm Hk h. unfold bind. specialize (Hm h).
  destruct (m h) as [[a|e] h1 e1]; simpl in *; [|done].
  rewrite Hk. done.
Qed.

Lemma reads_only_py_contains key v : reads_only (py_contains key v).
Proof. intros h. unfold py_contains. by repeat case_match. Qed.

Lemma reads_only_py_getitem v key : reads_only (py_getitem v key).
Proof. intros h. unfold py_getitem. by repeat case_match. Qed.

Lemma reads_only_py_hash v : reads_only (py_hash v).
Proof. intros h. unfold py_hash. by repeat case_match. Qed.

Lemma reads_only_py_len v : reads_only (py_len v).
Proof. intros h. unfold py_len. by repeat case_match. Qed.

Lemma reads_only_py_first v : reads_only (py_first v).
Proof. intros h. unfold py_first. by repeat case_match. Qed.

Lemma reads_only_py_iter v : reads_only (py_iter v).
Proof. intros h. unfold py_iter. by repeat case_match. Qed.

Lemma reads_only_for_each {A B} (body : A -> B -> M A) xs :
  (forall a x, reads_only (body a x)) ->
  forall acc, reads_only (for_each body xs acc).
Proof.
  intros Hb. induction xs as [|x xs IH]; intros acc; simpl.
  - apply reads_only_ret.
  - apply reads_only_bind; [apply Hb|apply IH].
Qed.

Lemma reads_only_partition_step acc p : reads_only (partition_step acc p).
Proof.
  destruct acc as [[tweets users] meta_info]. unfold partition_step.
  apply reads_only_bind; [apply reads_only_py_contains|]. intros [|].
  { apply reads_only_ret. }
  apply reads_only_bind; [apply reads_only_py_contains|]. intros [|].
  { apply reads_only_bind; [apply reads_only_py_getitem|].
    intros ?. apply reads_only_ret. }
  apply reads_only_bind; [apply reads_only_py_contains|]. intros [|].
  { apply reads_only_bind; [apply reads_only_py_getitem|].
    intros ?. apply reads_only_ret. }
  apply reads_only_ret.
Qed.

Lemma partition_step_record tweets users meta_info h r d :
  h !! r = Some d ->
  partition_step (tweets, users, meta_info) (PRef r) h =
  Res (Ok (match d !! "text", d !! "users", d !! "meta" with
           | Some _, _, _ => (tweets ++ [PRef r], users, meta_info)
           | None, Some users', _ => (tweets, users', meta_info)
           | None, None, Some meta_info' => (tweets, users, meta_info')
           | None, None, None => (tweets, users, meta_info)
           end)) h [].
Proof.
  intros Hr. unfold partition_step.
  destruct (d !! "text") as [t|] eqn:Ht.
  { rewrite (bind_pure _ _ _ _ (py_contains_present h r d Hr _ _ Ht)).
    reflexivity. }
  rewrite (bind_pure _ _ _ _ (py_contains_absent h r d Hr _ Ht)).
  destruct (d !! "users") as [u|] eqn:Hu.
  { rewrite (bind_pure _ _ _ _ (py_contains_present h r d Hr _ _ Hu)).
    rewrite (bind_pure _ _ _ _ (py_getitem_present h r d Hr _ _ Hu)).
    reflexivity. }
  rewrite (bind_pure _ _ _ _ (py_contains_absent h r d Hr _ Hu)).
  destruct (d !! "meta") as [m|] eqn:Hm.
  { rewrite (bind_pure _ _ _ _ (py_contains_present h r d Hr _ _ Hm)).
    rewrite (bind_pure _ _ _ _ (py_getitem_present h r d Hr _ _ Hm)).
    reflexivity. }
  rewrite (bind_pure _ _ _ _ (py_contains_absent h r d Hr _ Hm)).
  reflexivity.
Qed.

Lemma partition_pages_drop h r d pre post :
  h !! r = Some d ->
  d !! "text" = None -> d !! "users" = None -> d !! "meta" = None ->
  partition_pages (pre ++ PRef r :: post) h = partition_pages (pre ++ post) h.
Proof.
  intros Hr Ht Hu Hm. unfold partition_pages. rewrite !for_each_app.
  unfold bind.
  pose proof (reads_only_for_each partition_step pre
    reads_only_partition_step ([], PList [], PNone) h) as Hro.
  destruct (for_each partition_step pre ([], PList [], PNone) h)
    as [[acc|e] h1 e1]; simpl in *; [|done]. subst h1.
  destruct acc as [[tweets users] meta_info].
  rewrite (bind_pure _ _ _ _
    (partition_step_record tweets users meta_info h r d Hr)).
  by rewrite Ht, Hu, Hm.
Qed.

(** One turn of the partition: a page is classified by the keys it has, in the order ["text"],
    ["users"], ["meta"]: with ["text"] it joins the tweets; else with
    ["users"] its users list replaces the current one; else with ["meta"]
    its metadata replaces the current one; a page with none of the three
    changes nothing, raises nothing, and the pages around it are treated
    as if it were not there. *)
Theorem partition_step_classifies
    (tweets : list pyval) (users meta_info : pyval)
    (h : store) (r : nat) (d : dict) :
  h !! r = Some d ->
  partition_step (tweets, users, meta_info) (PRef r) h =
    Res (Ok (match d !! "text", d !! "users", d !! "meta" with
             | Some _, _, _ => (tweets ++ [PRef r], users, meta_info)
             | None, Some users', _ => (tweets, users', meta_info)
             | None, None, Some meta_info' => (tweets, users, meta_info')
             | None, None, None => (tweets, users, meta_info)
             end)) h []
  /\ (d !! "text" = None -> d !! "users" = None -> d !! "meta" = None ->
      forall pre post,
        partition_pages (pre ++ PRef r :: post) h
        = partition_pages (pre ++ post) h).
Proof.
  intros Hr. split.
  - by apply partition_step_record.
  - intros Ht Hu Hm pre post. by eapply partition_pages_drop.
Qed.

Lemma partition_step_classifies_witness :
  sample_store !! 7 = Some sample_meta_page
  /\ partition_step ([PRef 2], PList [PRef 1], PNone) (PRef 7) sample_store
     = Res (Ok ([PRef 2], PList [], PNone)) sample_store [].
Proof.
  split; [reflexivity|].
  destruct (partition_step_classifies [PRef 2] (PList [PRef 1]) PNone
    sample_store 7 sample_meta_page eq_refl) as [H _].
  rewrite H. reflexivity.
Defined.

Example partition_pages_sample :
  out (partition_pages [PRef 4; PRef 5; PRef 2; PRef 7; PRef 3] sample_store)
  = Ok ([PRef 2; PRef 3], PList [], PNone).
Proof. vm_compute. reflexivity. Qed.

(** ** The author map *)

Lemma build_user_map_no_users h : build_user_map (PList []) h = Res (Ok ∅) h [].
Proof. reflexivity. Qed.

Lemma build_user_map_first_without_id h r d rest :
  h !! r = Some d -> d !! "id" = None ->
  build_user_map (PList (PRef r :: rest)) h = Res (Ok ∅) h [].
Proof.
  intros Hr Hid. unfold build_user_map.
  rewrite (bind_pure _ _ _ (S (length rest))); [|reflexivity].
  cbv beta. change (0 <? S (length rest)) with true. cbv iota.
  rewrite (bind_pure _ _ _ false); [reflexivity|].
  rewrite (bind_pure _ _ _ (PRef r)); [|reflexivity].
  by apply (py_contains_absent h r d).
Qed.

Lemma build_user_map_first_with_id h r d rest :
  h !! r = Some d -> is_Some (d !! "id") ->
  build_user_map (PList (PRef r :: rest)) h =
  for_each user_map_step (PRef r :: rest) ∅ h.
Proof.
  intros Hr [id Hid]. unfold build_user_map.
  rewrite (bind_pure _ _ _ (S (length rest))); [|reflexivity].
  cbv beta. change (0 <? S (length rest)) with true. cbv iota.
  rewrite (bind_pure _ _ _ true).
  - rewrite (bind_pure _ _ _ (PRef r :: rest)); reflexivity.
  - rewrite (bind_pure _ _ _ (PRef r)); [|reflexivity].
    by apply (py_contains_present h r d Hr "id" id).
Qed.

Lemma user_map_step_user h u k um :
  is_user h u k -> user_map_step um u h = Res (Ok (<[k := u]> um)) h [].
Proof.
  intros (r & d & id & -> & Hr & Hid & Hk). unfold user_map_step.
  rewrite (bind_pure _ _ _ _ (py_getitem_present h r d Hr _ _ Hid)).
  rewrite (bind_pure _ _ _ _ (py_hash_key _ _ h Hk)).
  reflexivity.
Qed.

Lemma for_each_user_map_step h users keys um :
  Forall2 (is_user h) users keys ->
  for_each user_map_step users um h =
  Res (Ok (fold_left add_user (zip keys users) um)) h [].
Proof.
  intros Hus. revert um.
  induction Hus as [|u k users keys Hu _ IH]; intros um; simpl; [done|].
  rewrite (bind_pure _ _ _ _ (user_map_step_user h u k um Hu)).
  apply IH.
Qed.

Lemma build_user_map_users h users keys :
  Forall2 (is_user h) users keys ->
  build_user_map (PList users) h =
  Res (Ok (fold_left add_user (zip keys users) ∅)) h [].
Proof.
  intros Hus. destruct Hus as [|u k users keys Hu Hus]; [reflexivity|].
  pose proof Hu as (r & d & id & -> & Hr & Hid & Hk).
  rewrite (build_user_map_first_with_id h r d users Hr); [|by eexists].
  apply (for_each_user_map_step h (PRef r :: users) (k :: keys)).
  by constructor.
Qed.

Lemma fold_add_user_lookup (l : list (hkey * pyval)) um k u :
  NoDup (l.*1) ->
  fold_left add_user l um !! k = Some u <->
  (k, u) ∈ l \/ ((k ∉ l.*1) /\ um !! k = Some u).
Proof.
  revert um. induction l as [|[k0 u0] l IH]; intros um Hnd; simpl.
  - split; [intros ?; right; split; [apply not_elem_of_nil|done]|].
    intros [Hin|[_ ?]]; [by apply elem_of_nil in Hin|done].
  - apply NoDup_cons in Hnd as [Hk0 Hnd]. rewrite (IH _ Hnd).
    unfold add_user at 1. simpl. rewrite elem_of_cons, not_elem_of_cons.
    destruct (decide (k = k0)) as [->|Hne].
    + rewrite lookup_insert_eq. split.
      * intros [Hin|[_ [= ->]]]; [|by left; left].
        exfalso. apply Hk0. apply list_elem_of_fmap. by exists (k0, u).
      * intros [[[= ->]|Hin]|[[? _] _]]; [|by left|done].
        right. split; [done|reflexivity].
    + rewrite lookup_insert_ne by done. split.
      * intros [Hin|[Hk Hm]]; [by left; right|by right].
      * intros [[[= -> ->]|Hin]|[[_ Hk] Hm]]; [done|by left|by right].
Qed.

(** ** Attaching the author *)

Lemma attach_author_info_found h um t d a k u :
  h !! t = Some d -> d !! "author_id" = Some a -> hash_key a = Some k ->
  um !! k = Some u ->
  attach_author_info um (PRef t) h =
  Res (Ok tt) (<[t := <["author_info" := u]> d]> h) [].
Proof.
  intros Ht Ha Hk Hu. unfold attach_author_info.
  rewrite (bind_pure _ _ _ _ (py_contains_present h t d Ht _ _ Ha)).
  rewrite (bind_pure _ _ _ true).
  - rewrite (bind_pure _ _ _ _ (py_getitem_present h t d Ht _ _ Ha)).
    rewrite (bind_pure _ _ _ _ (py_hash_key _ _ h Hk)).
    rewrite Hu. simpl. by apply py_setitem_record.
  - rewrite (bind_pure _ _ _ _ (py_getitem_present h t d Ht _ _ Ha)).
    rewrite (bind_pure _ _ _ _ (py_hash_key _ _ h Hk)).
    rewrite Hu. unfold ret. by rewrite bool_decide_eq_true_2.
Qed.

Lemma attach_author_info_no_author h um t d :
  h !! t = Some d -> d !! "author_id" = None ->
  attach_author_info um (PRef t) h = Res (Ok tt) h [].
Proof.
  intros Ht Ha. unfold attach_author_info.
  rewrite (bind_pure _ _ _ _ (py_contains_absent h t d Ht _ Ha)).
  by rewrite bind_ret.
Qed.

Lemma attach_author_info_unknown h um t d a k :
  h !! t = Some d -> d !! "author_id" = Some a -> hash_key a = Some k ->
  um !! k = None ->
  attach_author_info um (PRef t) h = Res (Ok tt) h [].
Proof.
  intros Ht Ha Hk Hu. unfold attach_author_info.
  rewrite (bind_pure _ _ _ _ (py_contains_present h t d Ht _ _ Ha)).
  rewrite (bind_pure _ _ _ false); [reflexivity|].
  rewrite (bind_pure _ _ _ _ (py_getitem_present h t d Ht _ _ Ha)).
  rewrite (bind_pure _ _ _ _ (py_hash_key _ _ h Hk)).
  rewrite Hu. unfold ret. rewrite bool_decide_eq_false_2; [done|].
  by intros [? ?].
Qed.

Lemma attach_author_info_empty_map tweet h :
  hp (attach_author_info ∅ tweet h) = h.
Proof.
  unfold attach_author_info, bind.
  pose proof (reads_only_py_contains "author_id" tweet h) as Hc.
  destruct (py_contains "author_id" tweet h) as [[[|]|e] h1 e1];
    simpl in *; subst h1; [|done|done].
  pose proof (reads_only_py_getitem tweet "author_id" h) as Hg.
  destruct (py_getitem tweet "author_id" h) as [[a|e] h1 e2];
    simpl in *; subst h1; [|done].
  pose proof (reads_only_py_hash a h) as Hh.
  destruct (py_hash a h) as [[k|e] h1 e3]; simpl in *; subst h1; [|done].
  rewrite lookup_empty. rewrite bool_decide_eq_false_2; [done|].
  by intros [? ?].
Qed.

(** The two steps on their own. The author map is filled from the users list only when the list
    is non-empty and its first record has an ["id"]: an empty list, or a
    first record without ["id"], leaves it empty whatever the records after
    it hold. When it is filled, each user's id is bound to that user's
    record. A tweet whose ["author_id"] is a key of the map gets the record
    bound to it, the very object, under ["author_info"]; a tweet without
    ["author_id"], or with one the map does not know, is left as it is; and
    with the empty map no tweet is changed. *)
Theorem author_map_and_author_info (h : store) :
  build_user_map (PList []) h = Res (Ok ∅) h []
  /\ (forall r d rest,
        h !! r = Some d -> d !! "id" = None ->
        build_user_map (PList (PRef r :: rest)) h = Res (Ok ∅) h [])
  /\ (forall r d rest,
        h !! r = Some d -> is_Some (d !! "id") ->
        build_user_map (PList (PRef r :: rest)) h
        = for_each user_map_step (PRef r :: rest) ∅ h)
  /\ (forall users keys,
        Forall2 (is_user h) users keys ->
        build_user_map (PList users) h
        = Res (Ok (fold_left add_user (zip keys users) ∅)) h []
        /\ (NoDup keys ->
            forall k u,
              fold_left add_user (zip keys users) ∅ !! k = Some u
              <-> (k, u) ∈ zip keys users))
  /\ (forall um t d a k u,
        h !! t = Some d -> d !! "author_id" = Some a ->
        hash_key a = Some k -> um !! k = Some u ->
        attach_author_info um (PRef t) h
        = Res (Ok tt) (<[t := <["author_info" := u]> d]> h) [])
  /\ (forall um t d,
        h !! t = Some d -> d !! "author_id" = None ->
        attach_author_info um (PRef t) h = Res (Ok tt) h [])
  /\ (forall um t d a k,
        h !! t = Some d -> d !! "author_id" = Some a ->
        hash_key a = Some k -> um !! k = None ->
        attach_author_info um (PRef t) h = Res (Ok tt) h [])
  /\ (forall tweet, hp (attach_author_info ∅ tweet h) = h).
Proof.
  split; [apply build_user_map_no_users|].
  split; [intros; by eapply build_user_map_first_without_id|].
  split; [intros; by eapply build_user_map_first_with_id|].
  split.
  { intros users keys Hus. split; [by apply build_user_map_users|].
    intros Hnd k u. rewrite fold_add_user_lookup.
    - rewrite lookup_empty. split; [|by left].
      by intros [?|[_ ?]].
    - rewrite fst_zip; [done|].
      apply Forall2_length in Hus. lia. }
  split; [intros; by eapply attach_author_info_found|].
  split; [intros; by eapply attach_author_info_no_author|].
  split; [intros; by eapply attach_author_info_unknown|].
  intros tweet. apply attach_author_info_empty_map.
Qed.

Lemma author_map_and_author_info_witness :
  build_user_map (PList [PRef 1]) sample_store
  = Res (Ok (<[KStr "u1" := PRef 1]> ∅)) sample_store []
  /\ hp (attach_author_info (<[KStr "u1" := PRef 1]> ∅) (PRef 2) sample_store)
       !! 2 ≫= (.!! "author_info") = Some (PRef 1)
  /\ build_user_map (PList [PRef 5; PRef 1]) sample_store
     = Res (Ok ∅) sample_store [].
Proof.
  destruct (author_map_and_author_info sample_store)
    as (_ & Hnoid & _ & Hbuild & Hfound & _).
  split; [|split].
  - destruct (Hbuild [PRef 1] [KStr "u1"]) as [H _]; [|exact H].
    constructor; [|constructor].
    exists 1, sample_author, (PStr "u1"). by repeat split.
  - rewrite (Hfound (<[KStr "u1" := PRef 1]> ∅) 2 sample_tweet (PStr "u1")
      (KStr "u1") (PRef 1) eq_refl eq_refl eq_refl (lookup_insert_eq _ _ _)).
    simpl. rewrite lookup_insert_eq. simpl. apply lookup_insert_eq.
  - apply (Hnoid 5 sample_unknown_page [PRef 1]); reflexivity.
Defined.

(** ** lookup *)

Section Lookup.

Variable clean : string -> string.
Variable parse : string -> option (list url_info).
Context {auth request : Type}.
Variable load_credentials : option string -> bool -> outcome auth.
Variable gen_request_parameters : request_args -> outcome request.
Variable collect_results : request -> Z -> auth -> outcome (list pyval).

Lemma lookup_guard_all_empty config :
  truthy_list (usernames config) = false -> lookup_guard config = false.
Proof. intros Hu. unfold lookup_guard. rewrite Hu. apply andb_false_r. Qed.

Lemma lookup_past_guard config h :
  lookup_guard config = false ->
  exists rest,
    evs (lookup clean parse load_credentials gen_request_parameters
           collect_results config h)
    = EvLoadCredentials (twitter_config_filename config) true :: rest.
Proof.
  intros Hg. unfold lookup. rewrite Hg. rewrite bind_emit. simpl.
  by eexists.
Qed.

Lemma lookup_empty_result config h a rq :
  lookup_guard config = false ->
  load_credentials (twitter_config_filename config) true = Ok a ->
  gen_request_parameters (search_request_args config) = Ok rq ->
  collect_results rq (max_tweets config) a = Ok [] ->
  lookup clean parse load_credentials gen_request_parameters
    collect_results config h
  = Res (Ok []) h
      [ EvLoadCredentials (twitter_config_filename config) true;
        EvGenRequestParameters (search_request_args config);
        EvCollectResults (max_tweets config);
        EvLogNoTweetsFound ].
Proof.
  intros Hg Ha Hrq Hcr. unfold lookup. rewrite Hg.
  rewrite bind_emit, (bind_lift_ok _ _ _ _ Ha).
  rewrite bind_emit, (bind_lift_ok _ _ _ _ Hrq).
  rewrite bind_emit, (bind_lift_ok _ _ _ _ Hcr).
  reflexivity.
Qed.

End Lookup.

(** The guard that opens [lookup] fires exactly when the query, the
    keywords and the hashtags are empty and the usernames are not. *)
Lemma lookup_guard_fires config :
  lookup_guard config = true <->
  truthy_str (query config) = false
  /\ truthy_list (keywords config) = false
  /\ truthy_list (hashtags config) = false
  /\ truthy_list (usernames config) = true.
Proof.
  unfold lookup_guard.
  destruct (truthy_str (query config)), (truthy_list (keywords config)),
    (truthy_list (hashtags config)), (truthy_list (usernames config));
    simpl; intuition congruence.
Qed.

Example lookup_usernames_only_rejected :
  lookup sample_clean sample_parse sample_load_credentials
    sample_gen_request_parameters sample_collect_pages
    sample_username_config sample_store
  = Res (Raise (AttributeError
      "At least one non empty parameter required (query, keywords, hashtags, and usernames)"))
      sample_store [].
Proof. reflexivity. Qed.

(** C1. With the query, the keywords, the hashtags and the usernames all
    empty or absent the guard of [lookup] does not fire: the call goes on
    to the collaborators, and loading the credentials is the first thing
    it does. *)
Theorem lookup_all_selectors_empty_passes_guard
    (clean : string -> string) (parse : string -> option (list url_info))
    {auth request : Type}
    (load_credentials : option string -> bool -> outcome auth)
    (gen_request_parameters : request_args -> outcome request)
    (collect_results : request -> Z -> auth -> outcome (list pyval))
    (config : TwitterSourceConfig) (h : store) :
  truthy_str (query config) = false ->
  truthy_list (keywords config) = false ->
  truthy_list (hashtags config) = false ->
  truthy_list (usernames config) = false ->
  lookup_guard config = false
  /\ exists rest,
       evs (lookup clean parse load_credentials gen_request_parameters
              collect_results config h)
       = EvLoadCredentials (twitter_config_filename config) true :: rest.
Proof.
  intros _ _ _ Hu.
  pose proof (lookup_guard_all_empty config Hu) as Hg.
  split; [exact Hg|]. by apply lookup_past_guard.
Qed.

Lemma lookup_all_selectors_empty_passes_guard_witness :
  truthy_str (query sample_empty_config) = false
  /\ truthy_list (keywords sample_empty_config) = false
  /\ truthy_list (hashtags sample_empty_config) = false
  /\ truthy_list (usernames sample_empty_config) = false
  /\ (exists rest,
        evs (lookup sample_clean sample_parse sample_load_credentials
               sample_gen_request_parameters sample_collect_nothing
               sample_empty_config sample_store)
        = EvLoadCredentials None true :: rest)
  /\ out (lookup sample_clean sample_parse sample_load_credentials
            sample_gen_request_parameters sample_collect_nothing
            sample_empty_config sample_store) = Ok [].
Proof.
  repeat (split; [reflexivity|]).
  split; [|reflexivity].
  apply (lookup_all_selectors_empty_passes_guard sample_clean sample_parse
    sample_load_credentials sample_gen_request_parameters
    sample_collect_nothing sample_empty_config sample_store
    eq_refl eq_refl eq_refl eq_refl).
Defined.

(** C8. When the configuration passes the guard and the search answers no
    page, [lookup] answers the empty list: it logs that no tweet was found
    and stops there, with the store untouched and neither the metadata log
    line nor any call to the text cleaner. *)
Theorem lookup_no_tweets_found
    (clean : string -> string) (parse : string -> option (list url_info))
    {auth request : Type}
    (load_credentials : option string -> bool -> outcome auth)
    (gen_request_parameters : request_args -> outcome request)
    (collect_results : request -> Z -> auth -> outcome (list pyval))
    (config : TwitterSourceConfig) (h : store) (a : auth) (rq : request) :
  lookup_guard config = false ->
  load_credentials (twitter_config_filename config) true = Ok a ->
  gen_request_parameters (search_request_args config) = Ok rq ->
  collect_results rq (max_tweets config) a = Ok [] ->
  lookup clean parse load_credentials gen_request_parameters
    collect_results config h
  = Res (Ok []) h
      [ EvLoadCredentials (twitter_config_filename config) true;
        EvGenRequestParameters (search_request_args config);
        EvCollectResults (max_tweets config);
        EvLogNoTweetsFound ].
Proof. intros. by eapply lookup_empty_result. Qed.

Lemma lookup_no_tweets_found_witness :
  lookup_guard sample_keyword_config = false
  /\ lookup sample_clean sample_parse sample_load_credentials
       sample_gen_request_parameters sample_collect_nothing
       sample_keyword_config sample_store
     = Res (Ok []) sample_store
         [ EvLoadCredentials None true;
           EvGenRequestParameters (search_request_args sample_keyword_config);
           EvCollectResults 10;
           EvLogNoTweetsFound ].
Proof.
  split; [reflexivity|].
  apply (lookup_no_tweets_found sample_clean sample_parse
    sample_load_credentials sample_gen_request_parameters
    sample_collect_nothing sample_keyword_config sample_store tt
    "(foo OR bar) (-is:reply -is:retweet)");
    reflexivity.
Defined.

(** A whole run on the sample pages: a users page, a tweet, a page of no
    known shape and a second tweet. Both tweets get the author's record and
    their trailing URL. *)
Example lookup_sample_pages :
  let res := lookup sample_clean sample_parse sample_load_credentials
               sample_gen_request_parameters sample_collect_pages
               sample_keyword_config sample_store in
  out res
  = Ok [ {| processed_text := "Check this out"; meta := PRef 2;
            source_name := "Twitter" |};
         {| processed_text := "is cool"; meta := PRef 3;
            source_name := "Twitter" |} ]
  /\ hp res !! 2 ≫= (.!! "author_info") = Some (PRef 1)
  /\ hp res !! 2 ≫= (.!! "tweet_url") = Some (PStr "https://x.co/abc")
  /\ hp res !! 3 ≫= (.!! "author_info") = Some (PRef 1)
  /\ hp res !! 3 ≫= (.!! "tweet_url") = Some PNone
  /\ hp res !! 1 = Some sample_author
  /\ evs res
     = [ EvLoadCredentials None true;
         EvGenRequestParameters (search_request_args sample_keyword_config);
         EvCollectResults 10;
         EvLogMetaInfo PNone;
         EvParse (PStr "Check this out https://x.co/abc");
         EvClean (PStr "Check this out https://x.co/abc");
         EvParse (PStr "https://x.co/abc is cool");
         EvClean (PStr "https://x.co/abc is cool") ].
Proof. vm_compute. repeat split. Qed.

(** One turn of the loop over the tweets, for a tweet record whose author
    the map knows: the record gets the author's record and then the
    trailing URL, and its response is appended. *)
Lemma tweet_step_known_author
    (clean : string -> string) (parse : string -> option (list url_info))
    (um : gmap hkey pyval) (acc : list SourceResponse)
    (h : store) (t : nat) (d : dict) (text : string) (a u : pyval) (k : hkey) :
  h !! t = Some d ->
  d !! "text" = Some (PStr text) ->
  d !! "author_id" = Some a -> hash_key a = Some k -> um !! k = Some u ->
  tweet_step clean parse um acc (PRef t) h
  = Res (Ok (acc ++ [ {| processed_text := clean text; meta := PRef t;
                         source_name := "Twitter" |} ]))
        (<[t := <["tweet_url" := trailing_url (parse text) text]>
                  (<["author_info" := u]> d)]> h)
        [EvParse (PStr text); EvClean (PStr text)].
Proof.
  intros Ht Htext Ha Hk Hu. unfold tweet_step.
  rewrite (bind_ok _ _ _ _ _ _
    (attach_author_info_found h um t d a k u Ht Ha Hk Hu)).
  set (d1 := <["author_info" := u]> d).
  assert (Ht1 : <[t := d1]> h !! t = Some d1) by apply lookup_insert_eq.
  assert (Htext1 : d1 !! "text" = Some (PStr text)).
  { unfold d1. by rewrite lookup_insert_ne. }
  rewrite (bind_ok _ _ _ _ _ _
    (get_source_output_record clean parse _ t d1 text Ht1 Htext1)).
  simpl. by rewrite insert_insert_eq.
Qed.

(** * Further properties of the module *)

(** ** The query builder *)

Lemma append_eq_empty (s1 s2 : string) :
  s1 +:+ s2 = "" -> s1 = "" /\ s2 = "".
Proof.
  destruct s1 as [|c s1]; intros H.
  - change (s2 = "") in H. by subst.
  - change (String c (s1 +:+ s2) = "") in H. discriminate H.
Qed.

Lemma join_groups_nonempty (g : list string) (gs : list (list string)) :
  join " OR " (map or_group (g :: gs)) <> "".
Proof.
  destruct gs as [|g' gs]; intros H; inversion H.
Qed.

Lemma category_terms_empty (tokens : option (list string)) :
  category_terms tokens = [] <-> truthy_list tokens = false.
Proof. by destruct tokens as [[|t ts]|]. Qed.

Lemma and_query_str_of_clause (operators : option (list string)) :
  and_query_str_of (and_tokens_of operators) = and_clause operators.
Proof. by destruct operators as [[|op ops]|]. Qed.

(** X1. Without a free-text query the builder answers, for every input,
    the groups of the non-empty categories in the order keywords, hashtags,
    usernames, each group being its terms joined by [" OR "] inside
    parentheses, the groups joined by [" OR "], followed by the and-clause
    of the operators. *)
Theorem generate_query_string_shape
    (q : option string) (kw ht un ops : option (list string)) :
  truthy_str q = false ->
  _generate_query_string q kw ht un ops =
    join " OR "
      (map or_group (category_terms kw ++ category_terms ht ++ category_terms un))
    +:+ and_clause ops.
Proof.
  intros Hq. unfold _generate_query_string. rewrite Hq. simpl.
  by rewrite or_query_str_of_join, or_tokens_of_groups, and_query_str_of_clause.
Qed.

Lemma generate_query_string_shape_witness :
  truthy_str None = false
  /\ _generate_query_string None (Some ["a"; "b"]) (Some []) (Some ["@u"])
       (Some ["lang:en"; "-is:reply"])
     = "(a OR b) OR (@u) (lang:en -is:reply)".
Proof.
  split; [reflexivity|].
  rewrite (generate_query_string_shape None (Some ["a"; "b"]) (Some [])
    (Some ["@u"]) (Some ["lang:en"; "-is:reply"]) eq_refl).
  reflexivity.
Defined.

(** X2. The builder answers the empty string exactly when the query, the
    keywords, the hashtags, the usernames and the operators are all empty
    or absent. *)
Theorem generate_query_string_empty_iff
    (q : option string) (kw ht un ops : option (list string)) :
  _generate_query_string q kw ht un ops = "" <->
  truthy_str q = false /\ truthy_list kw = false /\ truthy_list ht = false
  /\ truthy_list un = false /\ truthy_list ops = false.
Proof.
  destruct (truthy_str q) eqn:Hq.
  - split; [|by intros [? _]].
    unfold _generate_query_string. rewrite Hq.
    destruct q as [s|]; [|done]. simpl in *.
    intros ->. done.
  - rewrite (generate_query_string_shape q kw ht un ops Hq). split.
    + intros [Hor Hand]%append_eq_empty.
      assert (Hcat : category_terms kw ++ category_terms ht
                       ++ category_terms un = []).
      { destruct (category_terms kw ++ category_terms ht ++ category_terms un)
          as [|g gs] eqn:E; [done|].
        by destruct (join_groups_nonempty g gs). }
      apply app_eq_nil in Hcat as [Hkw Hrest].
      apply app_eq_nil in Hrest as [Hht Hun].
      rewrite category_terms_empty in Hkw, Hht, Hun.
      do 4 (split; [done|]).
      by destruct ops as [[|op ops]|].
    + intros (_ & Hkw & Hht & Hun & Hops).
      rewrite <- category_terms_empty in Hkw, Hht, Hun.
      rewrite Hkw, Hht, Hun. by destruct ops as [[|op ops]|].
Qed.

(** X3. An empty string given as the query, and an empty list given as
    keywords, hashtags, usernames or operators, is treated exactly like an
    absent argument. *)
Theorem generate_query_string_empty_as_absent
    (q : option string) (kw ht un ops : option (list string)) :
  _generate_query_string (Some "") kw ht un ops
    = _generate_query_string None kw ht un ops
  /\ _generate_query_string q (Some []) ht un ops
     = _generate_query_string q None ht un ops
  /\ _generate_query_string q kw (Some []) un ops
     = _generate_query_string q kw None un ops
  /\ _generate_query_string q kw ht (Some []) ops
     = _generate_query_string q kw ht None ops
  /\ _generate_query_string q kw ht un (Some [])
     = _generate_query_string q kw ht un None.
Proof.
  split; [reflexivity|].
  unfold _generate_query_string, or_tokens_of. simpl.
  destruct (truthy_str q); by repeat split.
Qed.

(** ** What a run may change and emit *)

Lemma annotated_refl h : annotated h h.
Proof. intros r. by destruct (h !! r). Qed.

Lemma annotated_trans h1 h2 h3 :
  annotated h1 h2 -> annotated h2 h3 -> annotated h1 h3.
Proof.
  intros H12 H23 r. specialize (H12 r). specialize (H23 r).
  destruct (h1 !! r) as [d1|], (h2 !! r) as [d2|], (h3 !! r) as [d3|];
    try done.
  intros k Ha Hu. by rewrite H23, H12.
Qed.

Lemma annotated_insert h r d key x :
  h !! r = Some d -> key = "author_info" \/ key = "tweet_url" ->
  annotated h (<[r := <[key := x]> d]> h).
Proof.
  intros Hr Hkey r'. destruct (decide (r = r')) as [<-|Hne].
  - rewrite Hr, lookup_insert_eq. intros k Ha Hu.
    apply lookup_insert_ne. by destruct Hkey as [-> | ->].
  - rewrite lookup_insert_ne by done. by destruct (h !! r').
Qed.

Section Respects.

Variable Q : event -> Prop.

Lemma respects_pure {A} (m : M A) :
  (forall h, hp (m h) = h /\ evs (m h) = []) -> respects Q m.
Proof.
  intros Hm h. destruct (Hm h) as [-> ->].
  split; [apply annotated_refl|constructor].
Qed.

Lemma respects_ret {A} (a : A) : respects Q (ret a).
Proof. by apply respects_pure. Qed.

Lemma respects_raise {A} (e : exn) : respects Q (@raise A e).
Proof. by apply respects_pure. Qed.

Lemma respects_lift {A} (o : outcome A) : respects Q (lift o).
Proof. by apply respects_pure. Qed.

Lemma respects_emit (e : event) : Q e -> respects Q (emit e).
Proof.
  intros He h. split; [apply annotated_refl|]. by repeat constructor.
Qed.

Lemma respects_bind {A B} (m : M A) (k : A -> M B) :
  respects Q m -> (forall a, respects Q (k a)) -> respects Q (bind m k).
Proof.
  intros Hm Hk h. unfold bind. destruct (Hm h) as [Hh He].
  destruct (m h) as [[a|e] h1 e1]; simpl in *; [|done].
  destruct (Hk a h1) as [Hh1 He1]. split.
  - by eapply annotated_trans.
  - by apply Forall_app.
Qed.

Lemma respects_for_each {A B} (body : A -> B -> M A) xs :
  (forall a x, respects Q (body a x)) ->
  forall acc, respects Q (for_each body xs acc).
Proof.
  intros Hb. induction xs as [|x xs IH]; intros acc; simpl.
  - apply respects_ret.
  - apply respects_bind; [apply Hb|apply IH].
Qed.

Lemma respects_py_contains key v : respects Q (py_contains key v).
Proof.
  apply respects_pure. intros h. unfold py_contains. by repeat case_match.
Qed.

Lemma respects_py_getitem v key : respects Q (py_getitem v key).
Proof.
  apply respects_pure. intros h. unfold py_getitem. by repeat case_match.
Qed.

Lemma respects_py_hash v : respects Q (py_hash v).
Proof.
  apply respects_pure. intros h. unfold py_hash. by repeat case_match.
Qed.

Lemma respects_py_len v : respects Q (py_len v).
Proof.
  apply respects_pure. intros h. unfold py_len. by repeat case_match.
Qed.

Lemma respects_py_first v : respects Q (py_first v).
Proof.
  apply respects_pure. intros h. unfold py_first. by repeat case_match.
Qed.

Lemma respects_py_iter v : respects Q (py_iter v).
Proof.
  apply respects_pure. intros h. unfold py_iter. by repeat case_match.
Qed.

Lemma respects_as_str v : respects Q (as_str v).
Proof. destruct v; first [apply respects_ret|apply respects_raise]. Qed.

Lemma respects_py_setitem v key x :
  key = "author_info" \/ key = "tweet_url" ->
  respects Q (py_setitem v key x).
Proof.
  intros Hkey h. unfold py_setitem.
  destruct v; try (split; [apply annotated_refl|constructor]).
  destruct (h !! r) as [d|] eqn:Hr; simpl.
  - split; [by apply annotated_insert|constructor].
  - split; [apply annotated_refl|constructor].
Qed.

Lemma respects_partition_step acc p : respects Q (partition_step acc p).
Proof.
  destruct acc as [[tweets users] meta_info]. unfold partition_step.
  apply respects_bind; [apply respects_py_contains|]. intros [|].
  { apply respects_ret. }
  apply respects_bind; [apply respects_py_contains|]. intros [|].
  { apply respects_bind; [apply respects_py_getitem|].
    intros ?. apply respects_ret. }
  apply respects_bind; [apply respects_py_contains|]. intros [|].
  { apply respects_bind; [apply respects_py_getitem|].
    intros ?. apply respects_ret. }
  apply respects_ret.
Qed.

Lemma respects_build_user_map users : respects Q (build_user_map users).
Proof.
  unfold build_user_map.
  apply respects_bind; [apply respects_py_len|]. intros n.
  apply respects_bind.
  { destruct (0 <? n); [|apply respects_ret].
    apply respects_bind; [apply respects_py_first|].
    intros ?. apply respects_py_contains. }
  intros [|]; [|apply respects_ret].
  apply respects_bind; [apply respects_py_iter|]. intros items.
  apply respects_for_each. intros um user. unfold user_map_step.
  apply respects_bind; [apply respects_py_getitem|]. intros id.
  apply respects_bind; [apply respects_py_hash|]. intros k.
  apply respects_ret.
Qed.

Lemma respects_attach_author_info um tweet :
  respects Q (attach_author_info um tweet).
Proof.
  unfold attach_author_info.
  apply respects_bind; [apply respects_py_contains|]. intros has.
  apply respects_bind.
  { destruct has; [|apply respects_ret].
    apply respects_bind; [apply respects_py_getitem|]. intros a.
    apply respects_bind; [apply respects_py_hash|]. intros k.
    apply respects_ret. }
  intros [|]; [|apply respects_ret].
  apply respects_bind; [apply respects_py_getitem|]. intros a.
  apply respects_bind; [apply respects_py_hash|]. intros k.
  apply respects_py_setitem. by left.
Qed.

Hypothesis Qparse : forall text, Q (EvParse text).
Hypothesis Qclean : forall text, Q (EvClean text).
Hypothesis Qmeta : forall m, Q (EvLogMetaInfo m).

Variable clean : string -> string.
Variable parse : string -> option (list url_info).

Lemma respects_get_source_output tweet :
  respects Q (get_source_output clean parse tweet).
Proof.
  unfold get_source_output.
  apply respects_bind; [apply respects_py_getitem|]. intros t1.
  apply respects_bind.
  { unfold get_tweet_url.
    apply respects_bind; [by apply respects_emit|]. intros _.
    apply respects_bind; [apply respects_as_str|]. intros s1.
    destruct (negb _); apply respects_ret. }
  intros url.
  apply respects_bind; [apply respects_py_getitem|]. intros t2.
  apply respects_bind.
  { unfold clean_tweet_text.
    apply respects_bind; [by apply respects_emit|]. intros _.
    apply respects_bind; [apply respects_as_str|]. intros s2.
    apply respects_ret. }
  intros p.
  apply respects_bind; [apply respects_py_setitem; by right|]. intros _.
  apply respects_ret.
Qed.

Lemma respects_tweet_step um acc tweet :
  respects Q (tweet_step clean parse um acc tweet).
Proof.
  unfold tweet_step.
  apply respects_bind; [apply respects_attach_author_info|]. intros _.
  apply respects_bind; [apply respects_get_source_output|]. intros resp.
  apply respects_ret.
Qed.

Lemma respects_reshape pages : respects Q (reshape clean parse pages).
Proof.
  unfold reshape.
  apply respects_bind.
  { apply respects_for_each. apply respects_partition_step. }
  intros [[tweets users] meta_info].
  apply respects_bind; [apply respects_build_user_map|]. intros um.
  apply respects_bind; [by apply respects_emit|]. intros _.
  apply respects_for_each. apply respects_tweet_step.
Qed.

End Respects.

(** ** lookup as a whole *)

Section LookupRuns.

Variable clean : string -> string.
Variable parse : string -> option (list url_info).
Context {auth request : Type}.
Variable load_credentials : option string -> bool -> outcome auth.
Variable gen_request_parameters : request_args -> outcome request.
Variable collect_results : request -> Z -> auth -> outcome (list pyval).

Lemma respects_lookup (Q : event -> Prop) config :
  (forall e, no_search e -> Q e) ->
  Q (EvLoadCredentials (twitter_config_filename config) true) ->
  Q (EvGenRequestParameters (search_request_args config)) ->
  Q (EvCollectResults (max_tweets config)) ->
  respects Q (lookup clean parse load_credentials gen_request_parameters
    collect_results config).
Proof.
  intros Hq Hl Hg Hc. unfold lookup.
  destruct (lookup_guard config); [apply respects_raise|].
  apply respects_bind; [by apply respects_emit|]. intros _.
  apply respects_bind; [apply respects_lift|]. intros a.
  apply respects_bind; [by apply respects_emit|]. intros _.
  apply respects_bind; [apply respects_lift|]. intros rq.
  apply respects_bind; [by apply respects_emit|]. intros _.
  apply respects_bind; [apply respects_lift|]. intros [|p pages].
  - apply respects_bind; [apply respects_emit; by apply Hq|]. intros _.
    apply respects_ret.
  - apply respects_reshape; intros; by apply Hq.
Qed.

Lemma lookup_raises_at_guard config h :
  lookup_guard config = true ->
  lookup clean parse load_credentials gen_request_parameters
    collect_results config h
  = Res (Raise (AttributeError
      "At least one non empty parameter required (query, keywords, hashtags, and usernames)"))
      h [].
Proof. intros Hg. unfold lookup. by rewrite Hg. Qed.

Lemma lookup_load_fails config h e :
  lookup_guard config = false ->
  load_credentials (twitter_config_filename config) true = Raise e ->
  lookup clean parse load_credentials gen_request_parameters
    collect_results config h
  = Res (Raise e) h [EvLoadCredentials (twitter_config_filename config) true].
Proof.
  intros Hg Hl. unfold lookup. rewrite Hg, bind_emit, Hl. reflexivity.
Qed.

Lemma lookup_gen_request_fails config h a e :
  lookup_guard config = false ->
  load_credentials (twitter_config_filename config) true = Ok a ->
  gen_request_parameters (search_request_args config) = Raise e ->
  lookup clean parse load_credentials gen_request_parameters
    collect_results config h
  = Res (Raise e) h
      [ EvLoadCredentials (twitter_config_filename config) true;
        EvGenRequestParameters (search_request_args config) ].
Proof.
  intros Hg Hl Hr. unfold lookup.
  rewrite Hg, bind_emit, (bind_lift_ok _ _ _ _ Hl), bind_emit, Hr.
  reflexivity.
Qed.

Lemma lookup_collect_fails config h a rq e :
  lookup_guard config = false ->
  load_credentials (twitter_config_filename config) true = Ok a ->
  gen_request_parameters (search_request_args config) = Ok rq ->
  collect_results rq (max_tweets config) a = Raise e ->
  lookup clean parse load_credentials gen_request_parameters
    collect_results config h
  = Res (Raise e) h
      [ EvLoadCredentials (twitter_config_filename config) true;
        EvGenRequestParameters (search_request_args config);
        EvCollectResults (max_tweets config) ].
Proof.
  intros Hg Hl Hr Hc. unfold lookup.
  rewrite Hg, bind_emit, (bind_lift_ok _ _ _ _ Hl).
  rewrite bind_emit, (bind_lift_ok _ _ _ _ Hr), bind_emit, Hc.
  reflexivity.
Qed.

Lemma lookup_reaches_reshape config h a rq p pages :
  lookup_guard config = false ->
  load_credentials (twitter_config_filename config) true = Ok a ->
  gen_request_parameters (search_request_args config) = Ok rq ->
  collect_results rq (max_tweets config) a = Ok (p :: pages) ->
  lookup clean parse load_credentials gen_request_parameters
    collect_results config h
  = let r := reshape clean parse (p :: pages) h in
    Res (out r) (hp r)
      ([ EvLoadCredentials (twitter_config_filename config) true;
         EvGenRequestParameters (search_request_args config);
         EvCollectResults (max_tweets config) ] ++ evs r).
Proof.
  intros Hg Hl Hr Hc. unfold lookup.
  rewrite Hg, bind_emit, (bind_lift_ok _ _ _ _ Hl).
  rewrite bind_emit, (bind_lift_ok _ _ _ _ Hr).
  rewrite bind_emit, (bind_lift_ok _ _ _ _ Hc).
  reflexivity.
Qed.

End LookupRuns.

(** X4. [lookup] raises its [AttributeError], with the store untouched and
    no collaborator called, exactly when the query, the keywords and the
    hashtags are empty or absent and the usernames are not: a lookup by
    usernames alone is always refused. *)
Theorem lookup_rejects_iff
    (clean : string -> string) (parse : string -> option (list url_info))
    {auth request : Type}
    (load_credentials : option string -> bool -> outcome auth)
    (gen_request_parameters : request_args -> outcome request)
    (collect_results : request -> Z -> auth -> outcome (list pyval))
    (config : TwitterSourceConfig) (h : store) :
  lookup clean parse load_credentials gen_request_parameters
    collect_results config h
  = Res (Raise (AttributeError
      "At least one non empty parameter required (query, keywords, hashtags, and usernames)"))
      h []
  <->
  truthy_str (query config) = false
  /\ truthy_list (keywords config) = false
  /\ truthy_list (hashtags config) = false
  /\ truthy_list (usernames config) = true.
Proof.
  rewrite <- lookup_guard_fires. split.
  - intros Hrun. destruct (lookup_guard config) eqn:Hg; [done|].
    destruct (lookup_past_guard clean parse load_credentials
      gen_request_parameters collect_results config h Hg) as [rest Hev].
    rewrite Hrun in Hev. discriminate Hev.
  - intros Hg. by apply lookup_raises_at_guard.
Qed.

(** X5. A failure of the search client ends [lookup] with that very
    exception and the store untouched: after a failed credentials load no
    request is built and no search is run; after a failed request
    construction no search is run; after a failed search nothing is logged
    or normalised. *)
Theorem lookup_collaborator_failure
    (clean : string -> string) (parse : string -> option (list url_info))
    {auth request : Type}
    (load_credentials : option string -> bool -> outcome auth)
    (gen_request_parameters : request_args -> outcome request)
    (collect_results : request -> Z -> auth -> outcome (list pyval))
    (config : TwitterSourceConfig) (h : store) :
  lookup_guard config = false ->
  let run := lookup clean parse load_credentials gen_request_parameters
               collect_results config h in
  let L := EvLoadCredentials (twitter_config_filename config) true in
  let G := EvGenRequestParameters (search_request_args config) in
  let C := EvCollectResults (max_tweets config) in
  (forall e,
     load_credentials (twitter_config_filename config) true = Raise e ->
     run = Res (Raise e) h [L])
  /\ (forall a e,
        load_credentials (twitter_config_filename config) true = Ok a ->
        gen_request_parameters (search_request_args config) = Raise e ->
        run = Res (Raise e) h [L; G])
  /\ (forall a rq e,
        load_credentials (twitter_config_filename config) true = Ok a ->
        gen_request_parameters (search_request_args config) = Ok rq ->
        collect_results rq (max_tweets config) a = Raise e ->
        run = Res (Raise e) h [L; G; C]).
Proof.
  intros Hg run L G C. subst run L G C. split; [|split].
  - intros e Hl. by apply lookup_load_fails.
  - intros a e Hl Hr. by eapply lookup_gen_request_fails.
  - intros a rq e Hl Hr Hc. by eapply lookup_collect_fails.
Qed.

Lemma lookup_collaborator_failure_witness :
  lookup_guard sample_keyword_config = false
  /\ lookup sample_clean sample_parse sample_load_fails
       sample_gen_request_parameters sample_collect_pages
       sample_keyword_config sample_store
     = Res (Raise (CollaboratorFailure 401)) sample_store
         [EvLoadCredentials None true]
  /\ lookup sample_clean sample_parse sample_load_credentials
       sample_gen_request_parameters sample_collect_fails
       sample_keyword_config sample_store
     = Res (Raise (CollaboratorFailure 503)) sample_store
         [ EvLoadCredentials None true;
           EvGenRequestParameters (search_request_args sample_keyword_config);
           EvCollectResults 10 ].
Proof.
  split; [reflexivity|]. split.
  - destruct (lookup_collaborator_failure sample_clean sample_parse
      sample_load_fails sample_gen_request_parameters sample_collect_pages
      sample_keyword_config sample_store eq_refl) as (H & _ & _).
    by apply H.
  - destruct (lookup_collaborator_failure sample_clean sample_parse
      sample_load_credentials sample_gen_request_parameters
      sample_collect_fails sample_keyword_config sample_store eq_refl)
      as (_ & _ & H).
    by apply (H tt "(foo OR bar) (-is:reply -is:retweet)").
Defined.

(** X6. Whatever the configuration, the collaborators and the outcome,
    [lookup] leaves the store with the records it had: none is added or
    removed, and in every record every key other than ["author_info"] and
    ["tweet_url"] is bound as before. *)
Theorem lookup_only_annotates
    (clean : string -> string) (parse : string -> option (list url_info))
    {auth request : Type}
    (load_credentials : option string -> bool -> outcome auth)
    (gen_request_parameters : request_args -> outcome request)
    (collect_results : request -> Z -> auth -> outcome (list pyval))
    (config : TwitterSourceConfig) (h : store) (r : nat) :
  let h' := hp (lookup clean parse load_credentials gen_request_parameters
                  collect_results config h) in
  (h !! r = None <-> h' !! r = None)
  /\ (forall d d' k,
        h !! r = Some d -> h' !! r = Some d' ->
        k <> "author_info" -> k <> "tweet_url" -> d' !! k = d !! k).
Proof.
  intros h'. subst h'.
  destruct (respects_lookup clean parse load_credentials
    gen_request_parameters collect_results (fun _ => True) config
    (fun _ _ => I) I I I h) as [Hann _].
  specialize (Hann r).
  destruct (h !! r) as [d0|], (hp _ !! r) as [d1|]; try done.
  split; [done|]. intros d d' k [= <-] [= <-]. apply Hann.
Qed.

(** X7. Every run of [lookup] calls each operation of the search client at
    most once and in the order credentials, request, search, with the
    arguments the configuration gives; whatever it emits after the search
    is no call to the search client. *)
Theorem lookup_search_calls_in_order
    (clean : string -> string) (parse : string -> option (list url_info))
    {auth request : Type}
    (load_credentials : option string -> bool -> outcome auth)
    (gen_request_parameters : request_args -> outcome request)
    (collect_results : request -> Z -> auth -> outcome (list pyval))
    (config : TwitterSourceConfig) (h : store) :
  let es := evs (lookup clean parse load_credentials gen_request_parameters
                   collect_results config h) in
  let L := EvLoadCredentials (twitter_config_filename config) true in
  let G := EvGenRequestParameters (search_request_args config) in
  let C := EvCollectResults (max_tweets config) in
  es = [] \/ es = [L] \/ es = [L; G]
  \/ exists rest, es = L :: G :: C :: rest /\ Forall no_search rest.
Proof.
  intros es L G C. subst es L G C.
  destruct (lookup_guard config) eqn:Hg.
  { left. by rewrite lookup_raises_at_guard. }
  destruct (load_credentials (twitter_config_filename config) true)
    as [a|e] eqn:Hl.
  2:{ right; left. by erewrite lookup_load_fails. }
  destruct (gen_request_parameters (search_request_args config))
    as [rq|e] eqn:Hr.
  2:{ right; right; left. by erewrite lookup_gen_request_fails. }
  right; right; right.
  destruct (collect_results rq (max_tweets config) a) as [[|p pages]|e] eqn:Hc.
  - erewrite lookup_empty_result by done. simpl.
    eexists. split; [reflexivity|]. by repeat constructor.
  - erewrite lookup_reaches_reshape by done. simpl.
    eexists. split; [reflexivity|].
    by apply (respects_reshape no_search).
  - erewrite lookup_collect_fails by done. simpl.
    eexists. split; [reflexivity|]. constructor.
Qed.

(** ** The partition in closed form *)

Lemma default_last_cons {A} (a u : A) (l : list A) :
  default a (last (u :: l)) = default u (last l).
Proof.
  revert a u. induction l as [|x l IH]; intros a u; [reflexivity|].
  change (last (u :: x :: l)) with (last (x :: l)).
  by rewrite (IH a x), (IH u x).
Qed.

Lemma record_has_record h key r d :
  h !! r = Some d ->
  record_has h key (PRef r) = bool_decide (is_Some (d !! key)).
Proof. intros Hr. unfold record_has, record_get. by rewrite Hr. Qed.

Lemma for_each_partition_step_records h pages tweets users meta_info :
  Forall (is_record h) pages ->
  for_each partition_step pages (tweets, users, meta_info) h
  = Res (Ok (tweets ++ filter (fun v => record_has h "text" v) pages,
             default users (last (omap (users_page h) pages)),
             default meta_info (last (omap (meta_page h) pages)))) h [].
Proof.
  intros Hrec. revert tweets users meta_info.
  induction Hrec as [|p pages (r & d & -> & Hr) _ IH];
    intros tweets users meta_info.
  { simpl. by rewrite app_nil_r. }
  cbn [for_each].
  rewrite (bind_pure _ _ _ _
    (partition_step_record tweets users meta_info h r d Hr)).
  rewrite filter_cons. unfold users_page, meta_page.
  cbn [omap list_omap]. fold (users_page h) (meta_page h).
  rewrite !(record_has_record h _ r d Hr). unfold record_get.
  rewrite Hr. simpl.
  destruct (d !! "text") as [t|] eqn:Ht.
  { rewrite bool_decide_eq_true_2 by done. simpl.
    rewrite IH. by rewrite <- app_assoc. }
  rewrite (bool_decide_eq_false_2 (is_Some None)) by (by intros [? ?]).
  simpl.
  destruct (d !! "users") as [u|] eqn:Hu.
  { rewrite bool_decide_eq_true_2 by done. simpl.
    rewrite IH. by rewrite default_last_cons. }
  rewrite (bool_decide_eq_false_2 (is_Some None)) by (by intros [? ?]).
  simpl.
  destruct (d !! "meta") as [m|] eqn:Hm; simpl.
  - rewrite IH. by rewrite default_last_cons.
  - by rewrite IH.
Qed.

Lemma partition_pages_records h pages :
  Forall (is_record h) pages ->
  partition_pages pages h
  = Res (Ok (filter (fun v => record_has h "text" v) pages,
             default (PList []) (last (omap (users_page h) pages)),
             default PNone (last (omap (meta_page h) pages)))) h [].
Proof.
  intros Hrec. unfold partition_pages.
  by rewrite (for_each_partition_step_records h pages [] _ _ Hrec).
Qed.

(** X8. When every page is a record of the store, the partition raises
    nothing and reads the pages off in one pass: the tweets are the pages
    with a ["text"] key, in page order; the users list is that of the last
    page with ["users"] and without ["text"], or the empty list; the
    metadata is that of the last page with ["meta"] and with neither
    ["text"] nor ["users"], or [None]. *)
Theorem partition_pages_closed_form (h : store) (pages : list pyval) :
  Forall (is_record h) pages ->
  partition_pages pages h
  = Res (Ok (filter (fun v => record_has h "text" v) pages,
             default (PList []) (last (omap (users_page h) pages)),
             default PNone (last (omap (meta_page h) pages)))) h [].
Proof.
  intros Hrec. unfold partition_pages.
  by rewrite (for_each_partition_step_records h pages [] _ _ Hrec).
Qed.

Lemma partition_pages_closed_form_witness :
  Forall (is_record sample_store)
    [PRef 4; PRef 7; PRef 2; PRef 4; PRef 5; PRef 3]
  /\ partition_pages [PRef 4; PRef 7; PRef 2; PRef 4; PRef 5; PRef 3]
       sample_store
     = Res (Ok ([PRef 2; PRef 3], PList [PRef 1], PNone)) sample_store [].
Proof.
  assert (Hrec : Forall (is_record sample_store)
            [PRef 4; PRef 7; PRef 2; PRef 4; PRef 5; PRef 3]).
  { repeat constructor; eexists _, _; (split; [reflexivity|reflexivity]). }
  split; [exact Hrec|].
  rewrite (partition_pages_closed_form sample_store _ Hrec).
  reflexivity.
Defined.

(** ** The author map in closed form *)

Lemma fold_add_user_last (l : list (hkey * pyval)) um k :
  fold_left add_user l um !! k
  = match last (users_with_key k l) with
    | Some u => Some u
    | None => um !! k
    end.
Proof.
  revert um. induction l as [|[k0 u0] l IH]; intros um; [done|].
  cbn [fold_left]. rewrite IH. unfold add_user. simpl.
  unfold users_with_key. cbn [omap list_omap]. simpl.
  fold (users_with_key k l).
  destruct (decide (k0 = k)) as [->|Hne].
  - rewrite lookup_insert_eq.
    destruct (users_with_key k l) as [|u' l'] eqn:E; [done|].
    change (last (u0 :: u' :: l')) with (last (u' :: l')).
    destruct (last (u' :: l')) eqn:El; [done|].
    by apply last_None in El.
  - by rewrite lookup_insert_ne.
Qed.

(** X9. For a users list whose records all carry a hashable ["id"], the
    author map binds each key to the last record of the list with that id,
    and binds nothing else. *)
Theorem build_user_map_last_wins
    (h : store) (users : list pyval) (keys : list hkey) :
  Forall2 (is_user h) users keys ->
  exists um : gmap hkey pyval,
    build_user_map (PList users) h = Res (Ok um) h []
    /\ forall k, um !! k = last (users_with_key k (zip keys users)).
Proof.
  intros Hus. eexists. split; [by apply build_user_map_users|].
  intros k. rewrite fold_add_user_last, lookup_empty.
  by destruct (last _).
Qed.

Lemma build_user_map_last_wins_witness :
  Forall2 (is_user sample_store2) [PRef 1; PRef 8; PRef 1; PRef 9]
    [KStr "u1"; KStr "u2"; KStr "u1"; KStr "u1"]
  /\ exists um : gmap hkey pyval,
       build_user_map (PList [PRef 1; PRef 8; PRef 1; PRef 9]) sample_store2
       = Res (Ok um) sample_store2 []
       /\ um !! KStr "u1" = Some (PRef 9)
       /\ um !! KStr "u2" = Some (PRef 8)
       /\ um !! KStr "u3" = None.
Proof.
  assert (Hus : Forall2 (is_user sample_store2)
            [PRef 1; PRef 8; PRef 1; PRef 9]
            [KStr "u1"; KStr "u2"; KStr "u1"; KStr "u1"]).
  { repeat constructor.
    - by exists 1, sample_author, (PStr "u1").
    - by exists 8, sample_author2, (PStr "u2").
    - by exists 1, sample_author, (PStr "u1").
    - by exists 9, sample_author_renamed, (PStr "u1"). }
  split; [exact Hus|].
  destruct (build_user_map_last_wins sample_store2 _ _ Hus) as (um & Hb & Hk).
  exists um. split; [exact Hb|]. rewrite !Hk. by repeat split.
Defined.

(** X10. The check for ["id"] looks at the first user only: when the
    records before it are well formed and a later record has no ["id"],
    building the author map raises [KeyError] for ["id"] and leaves the
    store as it was. *)
Theorem build_user_map_later_user_without_id
    (h : store) (u0 : pyval) (before after : list pyval)
    (k0 : hkey) (keys : list hkey) (r : nat) (d : dict) :
  Forall2 (is_user h) (u0 :: before) (k0 :: keys) ->
  h !! r = Some d -> d !! "id" = None ->
  build_user_map (PList (u0 :: before ++ PRef r :: after)) h
  = Res (Raise (KeyError (PStr "id"))) h [].
Proof.
  intros Hus Hr Hid.
  pose proof Hus as Hus'. apply Forall2_cons in Hus' as [Hu0 _].
  destruct Hu0 as (r0 & d0 & id0 & -> & Hr0 & Hid0 & Hk0).
  rewrite (build_user_map_first_with_id h r0 d0 _ Hr0); [|by eexists].
  change (PRef r0 :: before ++ PRef r :: after)
    with ((PRef r0 :: before) ++ PRef r :: after).
  rewrite for_each_app.
  rewrite (bind_pure _ _ _ _
    (for_each_user_map_step h (PRef r0 :: before) (k0 :: keys) ∅ Hus)).
  cbn [for_each]. apply bind_raise. unfold user_map_step.
  apply bind_raise. by apply (py_getitem_absent h r d).
Qed.

Lemma build_user_map_later_user_without_id_witness :
  Forall2 (is_user sample_store2) [PRef 1; PRef 8] [KStr "u1"; KStr "u2"]
  /\ sample_store2 !! 5 = Some sample_unknown_page
  /\ sample_unknown_page !! "id" = None
  /\ build_user_map (PList [PRef 1; PRef 8; PRef 5; PRef 9]) sample_store2
     = Res (Raise (KeyError (PStr "id"))) sample_store2 [].
Proof.
  assert (Hus : Forall2 (is_user sample_store2) [PRef 1; PRef 8]
            [KStr "u1"; KStr "u2"]).
  { repeat constructor.
    - by exists 1, sample_author, (PStr "u1").
    - by exists 8, sample_author2, (PStr "u2"). }
  split; [exact Hus|]. split; [reflexivity|]. split; [reflexivity|].
  exact (build_user_map_later_user_without_id sample_store2 (PRef 1)
    [PRef 8] [PRef 9] (KStr "u1") [KStr "u2"] 5 sample_unknown_page
    Hus eq_refl eq_refl).
Defined.

(** ** The loop over the tweets in closed form *)

Section TweetsLoop.

Variable clean : string -> string.
Variable parse : string -> option (list url_info).
Variable um : gmap hkey pyval.

Lemma annotate_lookup_other d k :
  k <> "author_info" -> k <> "tweet_url" ->
  annotate parse um d !! k = d !! k.
Proof.
  intros Ha Hu. unfold annotate. rewrite lookup_insert_ne by done.
  destruct (known_author um d); [by rewrite lookup_insert_ne|done].
Qed.

Lemma annotate_text d : tweet_text_of (annotate parse um d) = tweet_text_of d.
Proof. unfold tweet_text_of. by rewrite annotate_lookup_other. Qed.

Lemma annotate_known_author d :
  known_author um (annotate parse um d) = known_author um d.
Proof. unfold known_author. by rewrite annotate_lookup_other. Qed.

Lemma annotate_author_ok d : author_ok d -> author_ok (annotate parse um d).
Proof. unfold author_ok. by rewrite annotate_lookup_other. Qed.

Lemma annotate_idem d :
  annotate parse um (annotate parse um d) = annotate parse um d.
Proof.
  unfold annotate at 1. rewrite annotate_text, annotate_known_author.
  unfold annotate.
  set (url := trailing_url (parse (tweet_text_of d)) (tweet_text_of d)).
  destruct (known_author um d) as [u|].
  - rewrite (insert_insert_ne _ "author_info" "tweet_url") by done.
    by rewrite !insert_insert_eq.
  - by rewrite insert_insert_eq.
Qed.

Lemma text_at_annotated h r d r' :
  h !! r = Some d -> text_at (<[r := annotate parse um d]> h) r' = text_at h r'.
Proof.
  intros Hr. unfold text_at. destruct (decide (r = r')) as [<-|Hne].
  - rewrite lookup_insert_eq, Hr. simpl. apply annotate_text.
  - by rewrite lookup_insert_ne.
Qed.

Lemma wf_tweet_annotated h r d r' :
  h !! r = Some d -> wf_tweet h r' ->
  wf_tweet (<[r := annotate parse um d]> h) r'.
Proof.
  intros Hr (d' & text & Hr' & Ht & Ha).
  destruct (decide (r = r')) as [<-|Hne].
  - assert (d' = d) as -> by congruence.
    exists (annotate parse um d), text. rewrite lookup_insert_eq.
    split; [done|]. split; [by rewrite annotate_lookup_other|].
    by apply annotate_author_ok.
  - exists d', text. by rewrite lookup_insert_ne.
Qed.

Lemma tweet_step_wf acc h r d text :
  h !! r = Some d -> d !! "text" = Some (PStr text) -> author_ok d ->
  tweet_step clean parse um acc (PRef r) h
  = Res (Ok (acc ++ [response_at clean h r]))
        (<[r := annotate parse um d]> h) (cleaner_events h r).
Proof.
  intros Hr Ht Ha.
  assert (Htext : text_at h r = text).
  { unfold text_at, tweet_text_of. by rewrite Hr; simpl; rewrite Ht. }
  assert (Htext' : tweet_text_of d = text).
  { unfold tweet_text_of. by rewrite Ht. }
  unfold response_at, cleaner_events, annotate. rewrite Htext, Htext'.
  unfold known_author, author_ok in *.
  destruct (d !! "author_id") as [a|] eqn:Hid.
  - destruct Ha as [k Hk]. rewrite Hk.
    destruct (um !! k) as [u|] eqn:Hu.
    + by apply (tweet_step_known_author clean parse um acc h r d text a u k).
    + unfold tweet_step.
      rewrite (bind_pure _ _ _ _
        (attach_author_info_unknown h um r d a k Hr Hid Hk Hu)).
      by rewrite (bind_ok _ _ _ _ _ _
        (get_source_output_record clean parse h r d text Hr Ht)).
  - unfold tweet_step.
    rewrite (bind_pure _ _ _ _
      (attach_author_info_no_author h um r d Hr Hid)).
    by rewrite (bind_ok _ _ _ _ _ _
      (get_source_output_record clean parse h r d text Hr Ht)).
Qed.

Lemma for_each_tweet_step_wf rs acc h :
  Forall (wf_tweet h) rs ->
  exists h',
    for_each (tweet_step clean parse um) (PRef <$> rs) acc h
    = Res (Ok (acc ++ (response_at clean h <$> rs))) h'
          (concat (cleaner_events h <$> rs))
    /\ forall r,
         h' !! r = if decide (r ∈ rs)
                   then annotate parse um <$> h !! r
                   else h !! r.
Proof.
  revert acc h. induction rs as [|r0 rs IH]; intros acc h Hwf.
  { exists h. split; [simpl; by rewrite app_nil_r|].
    intros r. destruct (decide (r ∈ [])) as [Hin|]; [|done].
    by apply elem_of_nil in Hin. }
  apply Forall_cons in Hwf as [(d & text & Hr0 & Ht & Ha) Hwf].
  set (h1 := <[r0 := annotate parse um d]> h).
  assert (Hwf1 : Forall (wf_tweet h1) rs).
  { eapply Forall_impl; [exact Hwf|]. intros r'. by apply wf_tweet_annotated. }
  destruct (IH (acc ++ [response_at clean h r0]) h1 Hwf1) as (h' & Hrun & Hh').
  exists h'. split.
  - rewrite fmap_cons. cbn [for_each].
    rewrite (bind_ok _ _ _ _ _ _ (tweet_step_wf acc h r0 d text Hr0 Ht Ha)).
    fold h1. rewrite Hrun. simpl. f_equal.
    + f_equal. rewrite <- app_assoc. simpl. do 2 f_equal.
      apply list_fmap_ext. intros _ r' _. unfold response_at, h1.
      by rewrite (text_at_annotated h r0 d r' Hr0).
    + do 3 f_equal.
      apply list_fmap_ext. intros _ r' _. unfold cleaner_events, h1.
      by rewrite (text_at_annotated h r0 d r' Hr0).
  - intros r. rewrite Hh'. unfold h1.
    destruct (decide (r0 = r)) as [<-|Hne].
    + rewrite lookup_insert_eq, Hr0. simpl.
      rewrite (decide_True (P := r0 ∈ r0 :: rs)) by apply list_elem_of_here.
      destruct (decide (r0 ∈ rs)); [|done].
      by rewrite annotate_idem.
    + rewrite lookup_insert_ne by done.
      destruct (decide (r ∈ rs)) as [Hin|Hnin].
      * rewrite decide_True; [done|]. by apply list_elem_of_further.
      * rewrite decide_False; [done|].
        intros [->|Hin]%elem_of_cons; done.
Qed.

End TweetsLoop.

(** X11. For tweet records whose text is a string and whose author id, if
    any, is hashable, the loop over the tweets raises nothing and answers
    one response per tweet, in order, each with the cleaned text of its
    record and the reference to it; the text cleaner is called on each text
    in turn; and afterwards exactly the records of these tweets have
    changed, each carrying the author's record under ["author_info"] when
    the map knows its author and the trailing URL of its text under
    ["tweet_url"], however often a record occurs among the tweets. *)
Theorem tweets_loop_closed_form
    (clean : string -> string) (parse : string -> option (list url_info))
    (um : gmap hkey pyval) (rs : list nat) (acc : list SourceResponse)
    (h : store) :
  Forall (wf_tweet h) rs ->
  let res := for_each (tweet_step clean parse um) (PRef <$> rs) acc h in
  out res = Ok (acc ++ (response_at clean h <$> rs))
  /\ evs res = concat (cleaner_events h <$> rs)
  /\ forall r,
       hp res !! r = if decide (r ∈ rs)
                     then annotate parse um <$> h !! r
                     else h !! r.
Proof.
  intros Hwf res. subst res.
  destruct (for_each_tweet_step_wf clean parse um rs acc h Hwf)
    as (h' & -> & Hh').
  by repeat split.
Qed.

Lemma tweets_loop_closed_form_witness :
  Forall (wf_tweet sample_store) [2; 3; 2]
  /\ out (for_each (tweet_step sample_clean sample_parse
                     (<[KStr "u1" := PRef 1]> ∅))
            (PRef <$> [2; 3; 2]) [] sample_store)
     = Ok [ {| processed_text := "Check this out"; meta := PRef 2;
               source_name := "Twitter" |};
            {| processed_text := "is cool"; meta := PRef 3;
               source_name := "Twitter" |};
            {| processed_text := "Check this out"; meta := PRef 2;
               source_name := "Twitter" |} ].
Proof.
  assert (Hwf : Forall (wf_tweet sample_store) [2; 3; 2]).
  { repeat constructor.
    - exists sample_tweet, "Check this out https://x.co/abc".
      repeat split; by eexists.
    - exists sample_tweet2, "https://x.co/abc is cool".
      repeat split; by eexists.
    - exists sample_tweet, "Check this out https://x.co/abc".
      repeat split; by eexists. }
  split; [exact Hwf|].
  destruct (tweets_loop_closed_form sample_clean sample_parse
    (<[KStr "u1" := PRef 1]> ∅) [2; 3; 2] [] sample_store Hwf) as (Hout & _).
  rewrite Hout. reflexivity.
Defined.

(** ** A whole run on well-formed pages *)

Lemma filter_text_refs (h : store) (rs : list nat) :
  filter (fun v => record_has h "text" v) (PRef <$> rs)
  = PRef <$> filter (fun r => record_has h "text" (PRef r)) rs.
Proof.
  induction rs as [|r rs IH]; [done|].
  rewrite fmap_cons, !filter_cons, IH.
  by destruct (decide (record_has h "text" (PRef r))).
Qed.

Lemma wf_page_is_record (h : store) (rs : list nat) :
  Forall (wf_page h) rs -> Forall (is_record h) (PRef <$> rs).
Proof.
  intros Hwf. apply Forall_fmap. eapply Forall_impl; [exact Hwf|].
  intros r (d & Hr & _). by exists r, d.
Qed.

Lemma wf_page_tweets (h : store) (rs : list nat) :
  Forall (wf_page h) rs ->
  Forall (wf_tweet h) (filter (fun r => record_has h "text" (PRef r)) rs).
Proof.
  intros Hwf. apply Forall_forall. intros r [Hhas Hin]%list_elem_of_filter.
  rewrite Forall_forall in Hwf. destruct (Hwf r Hin) as (d & Hr & Hd).
  rewrite (record_has_record h _ r d Hr) in Hhas.
  apply bool_decide_unpack in Hhas as [t Ht]. rewrite Ht in Hd.
  destruct Hd as [[text ->] Ha]. by exists d, text.
Qed.

Lemma wf_page_users (h : store) (rs : list nat) :
  Forall (wf_page h) rs ->
  exists users keys,
    default (PList []) (last (omap (users_page h) (PRef <$> rs))) = PList users
    /\ Forall2 (is_user h) users keys.
Proof.
  intros Hwf.
  destruct (last (omap (users_page h) (PRef <$> rs))) as [us|] eqn:Hlast.
  2:{ exists [], []. split; [done|constructor]. }
  apply last_Some_elem_of in Hlast.
  apply list_elem_of_omap in Hlast as (v & Hv & Hus).
  apply list_elem_of_fmap in Hv as (r & -> & Hin).
  rewrite Forall_forall in Hwf. destruct (Hwf r Hin) as (d & Hr & Hd).
  unfold users_page in Hus. rewrite (record_has_record h _ r d Hr) in Hus.
  unfold record_get in Hus. rewrite Hr in Hus. simpl in Hus.
  destruct (d !! "text") as [t|] eqn:Ht.
  { by rewrite bool_decide_eq_true_2 in Hus. }
  rewrite bool_decide_eq_false_2 in Hus by (by intros [? ?]).
  rewrite Hus in Hd. destruct Hd as (users & keys & -> & Hus').
  by exists users, keys.
Qed.

(** X12. A run of [lookup] on well-formed pages. When the guard passes, the
    search client answers a non-empty list of records, every tweet page has
    a string as text and a hashable author id (if any), and every users
    page lists records with hashable ids, then [lookup] raises nothing and
    answers one response per tweet page, in page order, with the cleaned
    text of the page and the reference to it; it calls the search client
    once, logs the metadata, and calls the text cleaner on each tweet text
    in turn; and exactly the tweet records are changed, each carrying its
    trailing URL and, when the last users page knows its author, that
    author's record. *)
Theorem lookup_well_formed_pages
    (clean : string -> string) (parse : string -> option (list url_info))
    {auth request : Type}
    (load_credentials : option string -> bool -> outcome auth)
    (gen_request_parameters : request_args -> outcome request)
    (collect_results : request -> Z -> auth -> outcome (list pyval))
    (config : TwitterSourceConfig) (h : store) (a : auth) (rq : request)
    (rs : list nat) :
  lookup_guard config = false ->
  load_credentials (twitter_config_filename config) true = Ok a ->
  gen_request_parameters (search_request_args config) = Ok rq ->
  collect_results rq (max_tweets config) a = Ok (PRef <$> rs) ->
  rs <> [] ->
  Forall (wf_page h) rs ->
  let trs := filter (fun r => record_has h "text" (PRef r)) rs in
  exists (users : list pyval) (keys : list hkey) (h' : store),
    default (PList []) (last (omap (users_page h) (PRef <$> rs))) = PList users
    /\ Forall2 (is_user h) users keys
    /\ lookup clean parse load_credentials gen_request_parameters
         collect_results config h
       = Res (Ok (response_at clean h <$> trs)) h'
           ([ EvLoadCredentials (twitter_config_filename config) true;
              EvGenRequestParameters (search_request_args config);
              EvCollectResults (max_tweets config);
              EvLogMetaInfo
                (default PNone (last (omap (meta_page h) (PRef <$> rs)))) ]
            ++ concat (cleaner_events h <$> trs))
    /\ forall r,
         h' !! r
         = if decide (r ∈ trs)
           then annotate parse (fold_left add_user (zip keys users) ∅)
                  <$> h !! r
           else h !! r.
Proof.
  intros Hg Hl Hrq Hc Hne Hwf trs.
  destruct (wf_page_users h rs Hwf) as (users & keys & Husers & Hus).
  destruct (for_each_tweet_step_wf clean parse
    (fold_left add_user (zip keys users) ∅) trs [] h
    (wf_page_tweets h rs Hwf)) as (h' & Hloop & Hh').
  exists users, keys, h'. split; [exact Husers|]. split; [exact Hus|].
  split; [|exact Hh'].
  destruct rs as [|r0 rs0]; [done|].
  rewrite fmap_cons in Hc.
  rewrite (lookup_reaches_reshape clean parse load_credentials
    gen_request_parameters collect_results config h a rq _ _ Hg Hl Hrq Hc).
  rewrite <- fmap_cons.
  assert (Hreshape :
    reshape clean parse (PRef <$> r0 :: rs0) h
    = Res (Ok (response_at clean h <$> trs)) h'
        (EvLogMetaInfo
           (default PNone (last (omap (meta_page h) (PRef <$> r0 :: rs0))))
         :: concat (cleaner_events h <$> trs))).
  { unfold reshape.
    rewrite (bind_pure _ _ _ _ (partition_pages_records h _
      (wf_page_is_record h _ Hwf))).
    cbv beta iota. rewrite Husers.
    rewrite (bind_pure _ _ _ _ (build_user_map_users h users keys Hus)).
    rewrite bind_emit, filter_text_refs. fold trs. by rewrite Hloop. }
  by rewrite Hreshape.
Qed.

Lemma lookup_well_formed_pages_witness :
  lookup_guard sample_keyword_config = false
  /\ Forall (wf_page sample_store) [4; 2; 5; 3]
  /\ out (lookup sample_clean sample_parse sample_load_credentials
            sample_gen_request_parameters sample_collect_pages
            sample_keyword_config sample_store)
     = Ok [ {| processed_text := "Check this out"; meta := PRef 2;
               source_name := "Twitter" |};
            {| processed_text := "is cool"; meta := PRef 3;
               source_name := "Twitter" |} ].
Proof.
  assert (Hwf : Forall (wf_page sample_store) [4; 2; 5; 3]).
  { repeat constructor.
    - exists sample_users_page. split; [reflexivity|].
      exists [PRef 1], [KStr "u1"]. split; [reflexivity|].
      repeat constructor. by exists 1, sample_author, (PStr "u1").
    - exists sample_tweet. split; [reflexivity|].
      split; by eexists.
    - by exists sample_unknown_page.
    - exists sample_tweet2. split; [reflexivity|].
      split; by eexists. }
  split; [reflexivity|]. split; [exact Hwf|].
  destruct (lookup_well_formed_pages sample_clean sample_parse
    sample_load_credentials sample_gen_request_parameters
    sample_collect_pages sample_keyword_config sample_store tt
    "(foo OR bar) (-is:reply -is:retweet)" [4; 2; 5; 3]
    eq_refl eq_refl eq_refl eq_refl ltac:(discriminate) Hwf)
    as (users & keys & h' & _ & _ & Hrun & _).
  rewrite Hrun. reflexivity.
Defined.

(** ** The normaliser on a record without text *)

(** X13. The normaliser handed a record without a ["text"] key raises
    [KeyError] for ["text"] before it calls the text cleaner and before it
    writes anything: the record gets no ["tweet_url"] and the store is as
    it was. *)
Theorem get_source_output_without_text
    (clean : string -> string) (parse : string -> option (list url_info))
    (h : store) (r : nat) (d : dict) :
  h !! r = Some d ->
  d !! "text" = None ->
  get_source_output clean parse (PRef r) h
  = Res (Raise (KeyError (PStr "text"))) h [].
Proof.
  intros Hr Ht. unfold get_source_output.
  apply bind_raise. by apply (py_getitem_absent h r d).
Qed.

Lemma get_source_output_without_text_witness :
  sample_store !! 1 = Some sample_author
  /\ sample_author !! "text" = None
  /\ get_source_output sample_clean sample_parse (PRef 1) sample_store
     = Res (Raise (KeyError (PStr "text"))) sample_store [].
Proof.
  split; [reflexivity|]. split; [reflexivity|].
  exact (get_source_output_without_text sample_clean sample_parse
    sample_store 1 sample_author eq_refl eq_refl).
Defined.

(** ** From the constructor to the request *)

(** X14. For a configuration built by the constructor, the request that
    [lookup] hands to the search client always carries the four field
    lists, comma-joined, the built-in lists standing in for the ones left
    out; the page size is [max_tweets], 10 when left out; and the query is
    built with the operators given, an explicitly empty list included, or
    with the built-in operators when none are given, which then close the
    query as [" (-is:reply -is:retweet)"]. *)
Theorem request_of_constructed_config
    (filename q : option string)
    (kw ht un ops : option (list string)) (since until : option Z)
    (period : option string)
    (tf uf ex pf : option (list string)) (mt : option Z) :
  let config := TwitterSourceConfig_init filename q kw ht un ops since until
                  period tf uf ex pf mt in
  search_request_args config
  = {| rq_query :=
         _generate_query_string q kw ht un
           (Some (default DEFAULT_OPERATORS ops));
       rq_results_per_call := default 10%Z mt;
       rq_place_fields := Some (join "," (default DEFAULT_PLACE_FIELDS pf));
       rq_expansions := Some (join "," (default DEFAULT_EXPANSIONS ex));
       rq_user_fields := Some (join "," (default DEFAULT_USER_FIELDS uf));
       rq_tweet_fields := Some (join "," (default DEFAULT_TWEET_FIELDS tf));
       rq_since_id := since;
       rq_until_id := until;
       rq_start_time := period |}
  /\ (truthy_str q = false -> ops = None ->
      rq_query (search_request_args config)
      = or_clause kw ht un +:+ " (-is:reply -is:retweet)")
  /\ (truthy_str q = false -> ops = Some [] ->
      rq_query (search_request_args config) = or_clause kw ht un).
Proof.
  intros config. subst config. split; [|split].
  - unfold search_request_args, TwitterSourceConfig_init. simpl.
    by destruct ops, tf, uf, ex, pf.
  - intros Hq ->. unfold search_request_args. simpl.
    unfold _generate_query_string, or_clause. by rewrite Hq.
  - intros Hq ->. unfold search_request_args. simpl.
    unfold _generate_query_string, or_clause. rewrite Hq.
    apply append_empty_r.
Qed.

(** ** Classification and author lookup in a whole run *)

Section WholeRun.

Variable clean : string -> string.
Variable parse : string -> option (list url_info).

Lemma reshape_drop h r d pre post :
  h !! r = Some d ->
  d !! "text" = None -> d !! "users" = None -> d !! "meta" = None ->
  reshape clean parse (pre ++ PRef r :: post) h
  = reshape clean parse (pre ++ post) h.
Proof.
  intros Hr Ht Hu Hm. unfold reshape, bind.
  by rewrite (partition_pages_drop h r d pre post Hr Ht Hu Hm).
Qed.

Lemma reshape_run (h : store) (rs : list nat) (um : gmap hkey pyval) :
  Forall (is_record h) (PRef <$> rs) ->
  build_user_map
    (default (PList []) (last (omap (users_page h) (PRef <$> rs)))) h
  = Res (Ok um) h [] ->
  Forall (wf_tweet h) (filter (fun r => record_has h "text" (PRef r)) rs) ->
  exists h',
    reshape clean parse (PRef <$> rs) h
    = Res (Ok (response_at clean h
                 <$> filter (fun r => record_has h "text" (PRef r)) rs))
          h'
          (EvLogMetaInfo
             (default PNone (last (omap (meta_page h) (PRef <$> rs))))
           :: concat (cleaner_events h
                        <$> filter (fun r => record_has h "text" (PRef r)) rs))
    /\ forall r,
         h' !! r
         = if decide (r ∈ filter (fun r => record_has h "text" (PRef r)) rs)
           then annotate parse um <$> h !! r
           else h !! r.
Proof.
  intros Hrec Hum Hwf.
  destruct (for_each_tweet_step_wf clean parse um _ [] h Hwf)
    as (h' & Hloop & Hh').
  exists h'. split; [|exact Hh'].
  unfold reshape.
  rewrite (bind_pure _ _ _ _ (partition_pages_records h _ Hrec)).
  cbv beta iota.
  rewrite (bind_pure _ _ _ _ Hum).
  rewrite bind_emit, filter_text_refs. by rewrite Hloop.
Qed.

Context {auth request : Type}.
Variable load_credentials : option string -> bool -> outcome auth.
Variable gen_request_parameters : request_args -> outcome request.
Variable collect_results : request -> Z -> auth -> outcome (list pyval).

Lemma lookup_run config (h : store) a rq (rs : list nat)
    (um : gmap hkey pyval) :
  lookup_guard config = false ->
  load_credentials (twitter_config_filename config) true = Ok a ->
  gen_request_parameters (search_request_args config) = Ok rq ->
  collect_results rq (max_tweets config) a = Ok (PRef <$> rs) ->
  rs <> [] ->
  Forall (is_record h) (PRef <$> rs) ->
  build_user_map
    (default (PList []) (last (omap (users_page h) (PRef <$> rs)))) h
  = Res (Ok um) h [] ->
  Forall (wf_tweet h) (filter (fun r => record_has h "text" (PRef r)) rs) ->
  exists h',
    lookup clean parse load_credentials gen_request_parameters
      collect_results config h
    = Res (Ok (response_at clean h
                 <$> filter (fun r => record_has h "text" (PRef r)) rs))
          h'
          ([ EvLoadCredentials (twitter_config_filename config) true;
             EvGenRequestParameters (search_request_args config);
             EvCollectResults (max_tweets config);
             EvLogMetaInfo
               (default PNone (last (omap (meta_page h) (PRef <$> rs)))) ]
           ++ concat (cleaner_events h
                        <$> filter (fun r => record_has h "text" (PRef r)) rs))
    /\ forall r,
         h' !! r
         = if decide (r ∈ filter (fun r => record_has h "text" (PRef r)) rs)
           then annotate parse um <$> h !! r
           else h !! r.
Proof.
  intros Hg Hl Hrq Hc Hne Hrec Hum Hwf.
  destruct (reshape_run h rs um Hrec Hum Hwf) as (h' & Hreshape & Hh').
  exists h'. split; [|exact Hh'].
  destruct rs as [|r0 rs0]; [done|].
  rewrite fmap_cons in Hc.
  rewrite (lookup_reaches_reshape clean parse load_credentials
    gen_request_parameters collect_results config h a rq _ _ Hg Hl Hrq Hc).
  rewrite <- fmap_cons. by rewrite Hreshape.
Qed.

End WholeRun.

Lemma page_classes (h : store) (rs : list nat) (r : nat) (d : dict) :
  r ∈ rs -> h !! r = Some d ->
  let trs := filter (fun r => record_has h "text" (PRef r)) rs in
  match d !! "text", d !! "users", d !! "meta" with
  | Some _, _, _ =>
      r ∈ trs /\ users_page h (PRef r) = None /\ meta_page h (PRef r) = None
  | None, Some us, _ =>
      (r ∉ trs) /\ users_page h (PRef r) = Some us
      /\ meta_page h (PRef r) = None
  | None, None, Some m =>
      (r ∉ trs) /\ users_page h (PRef r) = None
      /\ meta_page h (PRef r) = Some m
  | None, None, None =>
      (r ∉ trs) /\ users_page h (PRef r) = None
      /\ meta_page h (PRef r) = None
  end.
Proof.
  intros Hin Hr trs. subst trs.
  assert (Hhas : forall key,
    record_has h key (PRef r) = bool_decide (is_Some (d !! key))).
  { intros key. by apply record_has_record. }
  assert (Hget : forall key, record_get h key (PRef r) = d !! key).
  { intros key. unfold record_get. by rewrite Hr. }
  assert (Hno : bool_decide (is_Some (@None pyval)) = false).
  { apply bool_decide_eq_false_2. by intros [? ?]. }
  unfold users_page, meta_page. rewrite !Hhas, !Hget.
  destruct (d !! "text") as [t|] eqn:Ht.
  { rewrite bool_decide_eq_true_2 by done. split; [|done].
    apply list_elem_of_filter. split; [|done].
    rewrite Hhas, Ht. by rewrite bool_decide_eq_true_2. }
  assert (Hnot : r ∉ filter (fun r => record_has h "text" (PRef r)) rs).
  { intros [Hp _]%list_elem_of_filter. by rewrite Hhas, Ht, Hno in Hp. }
  rewrite Hno. simpl.
  destruct (d !! "users") as [us|] eqn:Hu.
  { by rewrite bool_decide_eq_true_2. }
  rewrite Hno. by destruct (d !! "meta").
Qed.

(** C5. In a run of [lookup] on well-formed pages every page the search
    returns falls in one class, decided by the first of the keys ["text"],
    ["users"], ["meta"] it has. The pages with ["text"] are the tweets,
    whatever other keys they have: the result holds one response for each,
    in page order, and no other. Of the remaining pages, those with
    ["users"] are users pages: the last of them gives the author map. Of
    the rest, those with ["meta"] are metadata pages: the last of them
    gives the value that is logged. A page with none of the three keys
    belongs to no class, and a run on the pages with it equals the run on
    the pages without it. *)
Theorem lookup_classifies_pages
    (clean : string -> string) (parse : string -> option (list url_info))
    {auth request : Type}
    (load_credentials : option string -> bool -> outcome auth)
    (gen_request_parameters : request_args -> outcome request)
    (collect_results : request -> Z -> auth -> outcome (list pyval))
    (config : TwitterSourceConfig) (h : store) (a : auth) (rq : request)
    (rs : list nat) :
  lookup_guard config = false ->
  load_credentials (twitter_config_filename config) true = Ok a ->
  gen_request_parameters (search_request_args config) = Ok rq ->
  collect_results rq (max_tweets config) a = Ok (PRef <$> rs) ->
  rs <> [] ->
  Forall (wf_page h) rs ->
  let pages := PRef <$> rs in
  let trs := filter (fun r => record_has h "text" (PRef r)) rs in
  let run := lookup clean parse load_credentials gen_request_parameters
               collect_results config h in
  (forall r d,
     r ∈ rs -> h !! r = Some d ->
     match d !! "text", d !! "users", d !! "meta" with
     | Some _, _, _ =>
         r ∈ trs /\ users_page h (PRef r) = None
         /\ meta_page h (PRef r) = None
     | None, Some us, _ =>
         (r ∉ trs) /\ users_page h (PRef r) = Some us
         /\ meta_page h (PRef r) = None
     | None, None, Some m =>
         (r ∉ trs) /\ users_page h (PRef r) = None
         /\ meta_page h (PRef r) = Some m
     | None, None, None =>
         (r ∉ trs) /\ users_page h (PRef r) = None
         /\ meta_page h (PRef r) = None
     end)
  /\ out run = Ok (response_at clean h <$> trs)
  /\ evs run
     = [ EvLoadCredentials (twitter_config_filename config) true;
         EvGenRequestParameters (search_request_args config);
         EvCollectResults (max_tweets config);
         EvLogMetaInfo (default PNone (last (omap (meta_page h) pages))) ]
       ++ concat (cleaner_events h <$> trs)
  /\ (exists users keys,
        default (PList []) (last (omap (users_page h) pages)) = PList users
        /\ Forall2 (is_user h) users keys
        /\ forall r,
             hp run !! r
             = if decide (r ∈ trs)
               then annotate parse (fold_left add_user (zip keys users) ∅)
                      <$> h !! r
               else h !! r)
  /\ (forall pre post r d,
        h !! r = Some d ->
        d !! "text" = None -> d !! "users" = None -> d !! "meta" = None ->
        reshape clean parse (pre ++ PRef r :: post) h
        = reshape clean parse (pre ++ post) h).
Proof.
  intros Hg Hl Hrq Hc Hne Hwf pages trs run. subst pages trs run.
  destruct (wf_page_users h rs Hwf) as (users & keys & Husers & Hus).
  assert (Hum := build_user_map_users h users keys Hus).
  rewrite <- Husers in Hum.
  destruct (lookup_run clean parse load_credentials gen_request_parameters
    collect_results config h a rq rs _ Hg Hl Hrq Hc Hne
    (wf_page_is_record h rs Hwf) Hum (wf_page_tweets h rs Hwf))
    as (h' & -> & Hh').
  split; [intros r d Hin Hr; by apply page_classes|].
  split; [reflexivity|]. split; [reflexivity|].
  split; [by exists users, keys|].
  intros pre post r d. apply reshape_drop.
Qed.

Lemma lookup_classifies_pages_witness :
  lookup_guard sample_keyword_config = false
  /\ Forall (wf_page sample_store3) [4; 11; 12; 5; 2]
  /\ out (lookup sample_clean sample_parse sample_load_credentials
            sample_gen_request_parameters sample_collect_mixed
            sample_keyword_config sample_store3)
     = Ok [ {| processed_text := "plain"; meta := PRef 12;
               source_name := "Twitter" |};
            {| processed_text := "Check this out"; meta := PRef 2;
               source_name := "Twitter" |} ]
  /\ evs (lookup sample_clean sample_parse sample_load_credentials
            sample_gen_request_parameters sample_collect_mixed
            sample_keyword_config sample_store3)
     = [ EvLoadCredentials None true;
         EvGenRequestParameters (search_request_args sample_keyword_config);
         EvCollectResults 10;
         EvLogMetaInfo (PRef 6);
         EvParse (PStr "plain"); EvClean (PStr "plain");
         EvParse (PStr "Check this out https://x.co/abc");
         EvClean (PStr "Check this out https://x.co/abc") ].
Proof.
  assert (Hwf : Forall (wf_page sample_store3) [4; 11; 12; 5; 2]).
  { repeat constructor.
    - exists sample_users_page. split; [reflexivity|].
      exists [PRef 1], [KStr "u1"]. split; [reflexivity|].
      repeat constructor. by exists 1, sample_author, (PStr "u1").
    - by exists sample_meta_only_page.
    - exists sample_tweet_with_users. split; [reflexivity|].
      split; [by eexists|done].
    - by exists sample_unknown_page.
    - exists sample_tweet. split; [reflexivity|].
      split; by eexists. }
  split; [reflexivity|]. split; [exact Hwf|].
  destruct (lookup_classifies_pages sample_clean sample_parse
    sample_load_credentials sample_gen_request_parameters
    sample_collect_mixed sample_keyword_config sample_store3 tt
    "(foo OR bar) (-is:reply -is:retweet)" [4; 11; 12; 5; 2]
    eq_refl eq_refl eq_refl eq_refl ltac:(discriminate) Hwf)
    as (_ & Hout & Hevs & _).
  rewrite Hout, Hevs. split; reflexivity.
Defined.

Lemma annotate_author_info parse um d :
  annotate parse um d !! "author_info"
  = match known_author um d with
    | Some u => Some u
    | None => d !! "author_info"
    end.
Proof.
  unfold annotate. rewrite lookup_insert_ne by done.
  destruct (known_author um d); [apply lookup_insert_eq|done].
Qed.

Lemma known_author_empty d : known_author ∅ d = None.
Proof.
  unfold known_author. destruct (d !! "author_id") as [a|]; [|done].
  destruct (hash_key a); [apply lookup_empty|done].
Qed.

Lemma zip_is_user h users keys k u :
  Forall2 (is_user h) users keys -> (k, u) ∈ zip keys users -> is_user h u k.
Proof.
  intros Hus. induction Hus as [|u0 k0 users keys Hu0 _ IH]; simpl.
  - by intros ?%elem_of_nil.
  - intros [[= -> ->]|Hin]%elem_of_cons; [done|by apply IH].
Qed.

Lemma fold_add_user_is_user h users keys k u :
  Forall2 (is_user h) users keys ->
  fold_left add_user (zip keys users) ∅ !! k = Some u ->
  is_user h u k.
Proof.
  intros Hus. rewrite fold_add_user_last, lookup_empty.
  destruct (last (users_with_key k (zip keys users))) as [u'|] eqn:Hlast;
    [|done].
  intros [= ->]. apply last_Some_elem_of in Hlast.
  apply list_elem_of_omap in Hlast as ([k' u'] & Hin & Hk). simpl in Hk.
  destruct (decide (k' = k)) as [->|]; [|done].
  injection Hk as ->. by eapply zip_is_user.
Qed.

(** C6. In a run of [lookup] the author map comes from the users list the
    pages leave. When that list is empty, or its first record has no
    ["id"], the map stays empty whatever the later records hold, and no
    record has its ["author_info"] touched: every tweet gets its trailing
    URL only. When the list holds records with ids, every tweet whose
    ["author_id"] is a key of the map ends with the record the map binds
    to it, a user of that id and the very object of the users list, under
    ["author_info"]; a tweet without ["author_id"], or with one the map
    does not know, keeps the ["author_info"] it had. In both cases the
    result holds one response per tweet. *)
Theorem lookup_author_info
    (clean : string -> string) (parse : string -> option (list url_info))
    {auth request : Type}
    (load_credentials : option string -> bool -> outcome auth)
    (gen_request_parameters : request_args -> outcome request)
    (collect_results : request -> Z -> auth -> outcome (list pyval))
    (config : TwitterSourceConfig) (h : store) (a : auth) (rq : request)
    (rs : list nat) :
  lookup_guard config = false ->
  load_credentials (twitter_config_filename config) true = Ok a ->
  gen_request_parameters (search_request_args config) = Ok rq ->
  collect_results rq (max_tweets config) a = Ok (PRef <$> rs) ->
  rs <> [] ->
  Forall (is_record h) (PRef <$> rs) ->
  Forall (wf_tweet h) (filter (fun r => record_has h "text" (PRef r)) rs) ->
  let users_list :=
    default (PList []) (last (omap (users_page h) (PRef <$> rs))) in
  let trs := filter (fun r => record_has h "text" (PRef r)) rs in
  let run := lookup clean parse load_credentials gen_request_parameters
               collect_results config h in
  (users_list = PList []
   \/ (exists r0 d0 rest,
         users_list = PList (PRef r0 :: rest)
         /\ h !! r0 = Some d0 /\ d0 !! "id" = None) ->
   out run = Ok (response_at clean h <$> trs)
   /\ (forall r,
         hp run !! r
         = if decide (r ∈ trs) then annotate parse ∅ <$> h !! r
           else h !! r)
   /\ (forall r d d',
         h !! r = Some d -> hp run !! r = Some d' ->
         d' !! "author_info" = d !! "author_info"))
  /\ (forall users keys,
        users_list = PList users ->
        Forall2 (is_user h) users keys ->
        let um := fold_left add_user (zip keys users) ∅ in
        out run = Ok (response_at clean h <$> trs)
        /\ build_user_map users_list h = Res (Ok um) h []
        /\ (forall t d au k u,
              t ∈ trs -> h !! t = Some d ->
              d !! "author_id" = Some au -> hash_key au = Some k ->
              um !! k = Some u ->
              is_user h u k
              /\ exists d',
                   hp run !! t = Some d' /\ d' !! "author_info" = Some u)
        /\ (forall t d,
              t ∈ trs -> h !! t = Some d -> known_author um d = None ->
              exists d',
                hp run !! t = Some d'
                /\ d' !! "author_info" = d !! "author_info")).
Proof.
  intros Hg Hl Hrq Hc Hne Hrec Hwf users_list trs run.
  subst trs run. split.
  - intros Hnone.
    assert (Hum : build_user_map users_list h = Res (Ok ∅) h []).
    { destruct Hnone as [->|(r0 & d0 & rest & -> & Hr0 & Hid)].
      - apply build_user_map_no_users.
      - by apply (build_user_map_first_without_id h r0 d0 rest). }
    destruct (lookup_run clean parse load_credentials gen_request_parameters
      collect_results config h a rq rs ∅ Hg Hl Hrq Hc Hne Hrec Hum Hwf)
      as (h' & Hrun & Hh').
    rewrite Hrun. simpl.
    split; [reflexivity|]. split; [exact Hh'|].
    intros r d d' Hr Hr'. rewrite Hh', Hr in Hr'.
    destruct (decide (r ∈ _)); simpl in Hr'; inversion Hr'; [|done].
    by rewrite annotate_author_info, known_author_empty.
  - intros users keys Husers Hus um.
    assert (Hum : build_user_map users_list h = Res (Ok um) h []).
    { rewrite Husers. by apply build_user_map_users. }
    destruct (lookup_run clean parse load_credentials gen_request_parameters
      collect_results config h a rq rs um Hg Hl Hrq Hc Hne Hrec Hum Hwf)
      as (h' & Hrun & Hh').
    rewrite Hrun. simpl.
    split; [reflexivity|]. split; [exact Hum|]. split.
    + intros t d au k u Hin Ht Hau Hk Hu.
      split; [by apply (fold_add_user_is_user h users keys)|].
      exists (annotate parse um d). rewrite Hh', Ht.
      rewrite decide_True by done. split; [done|].
      rewrite annotate_author_info. unfold known_author.
      by rewrite Hau, Hk, Hu.
    + intros t d Hin Ht Hknown.
      exists (annotate parse um d). rewrite Hh', Ht.
      rewrite decide_True by done. split; [done|].
      by rewrite annotate_author_info, Hknown.
Qed.

Lemma lookup_author_info_witness :
  lookup_guard sample_keyword_config = false
  /\ Forall (is_record sample_store3) (PRef <$> [4; 11; 12; 5; 2])
  /\ Forall (wf_tweet sample_store3) [12; 2]
  /\ hp (lookup sample_clean sample_parse sample_load_credentials
           sample_gen_request_parameters sample_collect_mixed
           sample_keyword_config sample_store3)
       !! 2 ≫= (.!! "author_info") = Some (PRef 1)
  /\ hp (lookup sample_clean sample_parse sample_load_credentials
           sample_gen_request_parameters sample_collect_first_without_id
           sample_keyword_config sample_store3)
       !! 2 ≫= (.!! "author_info") = None.
Proof.
  assert (Hrec : forall rs r,
    is_Some (sample_store3 !! r) ->
    Forall (is_record sample_store3) (PRef <$> rs) ->
    Forall (is_record sample_store3) (PRef <$> r :: rs)).
  { intros rs r [d Hd] Hrs. constructor; [by exists r, d|done]. }
  assert (Hrec1 : Forall (is_record sample_store3) (PRef <$> [4; 11; 12; 5; 2])).
  { repeat (apply Hrec; [by eexists|]). constructor. }
  assert (Hrec2 : Forall (is_record sample_store3) (PRef <$> [10; 2])).
  { repeat (apply Hrec; [by eexists|]). constructor. }
  assert (Hwf2 : wf_tweet sample_store3 2).
  { exists sample_tweet, "Check this out https://x.co/abc".
    split; [reflexivity|]. split; [reflexivity|]. by eexists. }
  assert (Hwf12 : wf_tweet sample_store3 12).
  { exists sample_tweet_with_users, "plain".
    split; [reflexivity|]. split; [reflexivity|]. done. }
  split; [reflexivity|]. split; [exact Hrec1|].
  split; [by repeat constructor|]. split.
  - destruct (lookup_author_info sample_clean sample_parse
      sample_load_credentials sample_gen_request_parameters
      sample_collect_mixed sample_keyword_config sample_store3 tt
      "(foo OR bar) (-is:reply -is:retweet)" [4; 11; 12; 5; 2]
      eq_refl eq_refl eq_refl eq_refl ltac:(discriminate) Hrec1
      ltac:(by repeat constructor)) as [_ Hbuilt].
    destruct (Hbuilt [PRef 1] [KStr "u1"] eq_refl) as (_ & _ & Hknown & _).
    { repeat constructor. by exists 1, sample_author, (PStr "u1"). }
    assert (Hin : 2 ∈ filter
              (fun r => record_has sample_store3 "text" (PRef r))
              [4; 11; 12; 5; 2]).
    { apply list_elem_of_filter. split; [done|].
      do 4 apply list_elem_of_further. apply list_elem_of_here. }
    destruct (Hknown 2 sample_tweet (PStr "u1") (KStr "u1") (PRef 1)
      Hin eq_refl eq_refl eq_refl (lookup_insert_eq _ _ _))
      as (_ & d' & Hd' & Hinfo).
    rewrite Hd'. exact Hinfo.
  - destruct (lookup_author_info sample_clean sample_parse
      sample_load_credentials sample_gen_request_parameters
      sample_collect_first_without_id sample_keyword_config sample_store3 tt
      "(foo OR bar) (-is:reply -is:retweet)" [10; 2]
      eq_refl eq_refl eq_refl eq_refl ltac:(discriminate) Hrec2
      ltac:(by repeat constructor)) as [Hnone _].
    destruct Hnone as (_ & _ & Hsame).
    { right. exists 5, sample_unknown_page, [PRef 1]. by repeat split. }
    destruct (hp _ !! 2) as [d'|] eqn:Hd'; [|done]. simpl.
    by rewrite (Hsame 2 sample_tweet d' eq_refl Hd').
Defined.
